(** * Doctor listing: filter, sort, autocomplete and query-state logic

    A shallow embedding of the two variants of the [App] component of the
    repository: [src/src/App.tsx] (module [App]) and the second variant,
    [src/unnamed/part_000] (module [Part000]).

    Both variants read a list of doctors and the URL query parameters and
    derive a filtered, ordered list and a list of name suggestions; both
    write the URL through [updateParam].

    Conventions of the embedding:
    - a JavaScript string is a [string] of 8-bit code units, and
      [toLowerCase] acts on the letters [A]-[Z] (the names, modes and the
      specialty vocabulary of the payload are ASCII);
    - the numbers [fees] and [experience] are integers ([Z]); the
      comparators only use the sign of a difference;
    - a [TypeError] raised by the evaluation is an explicit result
      ([Js.Throw]);
    - [URLSearchParams] is the ordered list of its name-value pairs. *)

From Stdlib Require Import List String Ascii ZArith Lia Bool Arith.
From Stdlib Require Import Permutation Sorted.
Import ListNotations.

Local Open Scope string_scope.
Local Open Scope list_scope.

(* ================================================================== *)
(** * JavaScript primitives used by the component *)
(* ================================================================== *)

Module Js.

(** ** Completions: a value, or a thrown TypeError *)

Inductive completion (A : Type) : Type :=
| Normal (a : A)
| Throw.
Arguments Normal {A} a.
Arguments Throw {A}.

Definition bind {A B} (c : completion A) (k : A -> completion B)
  : completion B :=
  match c with
  | Normal a => k a
  | Throw => Throw
  end.

(** ** Strings *)

(** [!s] is false exactly for the empty string, so [if (s)] tests this. *)
Definition truthy (s : string) : bool :=
  match s with
  | EmptyString => false
  | String _ _ => true
  end.

Definition is_upper (c : ascii) : bool :=
  let n := nat_of_ascii c in ((65 <=? n) && (n <=? 90))%nat.

Definition to_lower_char (c : ascii) : ascii :=
  if is_upper c then ascii_of_nat (nat_of_ascii c + 32) else c.

(** [String.prototype.toLowerCase]. *)
Fixpoint toLowerCase (s : string) : string :=
  match s with
  | EmptyString => EmptyString
  | String c s' => String (to_lower_char c) (toLowerCase s')
  end.

(** [q] occurs at the start of [s]. *)
Fixpoint startsWith (s q : string) : bool :=
  match q, s with
  | EmptyString, _ => true
  | String _ _, EmptyString => false
  | String a q', String b s' => Ascii.eqb a b && startsWith s' q'
  end.

(** [String.prototype.includes]: [q] occurs somewhere in [s]. *)
Fixpoint includes (s q : string) : bool :=
  startsWith s q ||
  match s with
  | EmptyString => false
  | String _ s' => includes s' q
  end.

(** [String.prototype.split] with a separator of one code unit.  The
    result always has at least one element: the empty string splits
    into one empty string. *)
Fixpoint split (sep : ascii) (s : string) : list string :=
  match s with
  | EmptyString => [EmptyString]
  | String c s' =>
      if Ascii.eqb c sep then EmptyString :: split sep s'
      else match split sep s' with
           | [] => [String c EmptyString]
           | h :: t => String c h :: t
           end
  end.

(** [Array.prototype.join] on an array of strings. *)
Fixpoint join (sep : string) (l : list string) : string :=
  match l with
  | [] => EmptyString
  | [x] => x
  | x :: l' => x ++ sep ++ join sep l'
  end.

(** [s.replace(p, r)] with a string pattern of one code unit: only the
    first occurrence is replaced. *)
Fixpoint replace_first (p : ascii) (r : string) (s : string) : string :=
  match s with
  | EmptyString => EmptyString
  | String c s' =>
      if Ascii.eqb c p then r ++ s' else String c (replace_first p r s')
  end.

(** [s.replaceAll(p, r)] with a string pattern of one code unit. *)
Fixpoint replaceAll (p : ascii) (r : string) (s : string) : string :=
  match s with
  | EmptyString => EmptyString
  | String c s' =>
      if Ascii.eqb c p then r ++ replaceAll p r s'
      else String c (replaceAll p r s')
  end.

(** [s.replace(/[...]+/g, r)] for a character class [cls]: every
    maximal run of characters of the class is replaced by one [r].
    [in_run] tells that the previous character was of the class. *)
Fixpoint replace_runs_from (cls : ascii -> bool) (r : string)
         (in_run : bool) (s : string) : string :=
  match s with
  | EmptyString => EmptyString
  | String c s' =>
      if cls c then
        if in_run then replace_runs_from cls r true s'
        else r ++ replace_runs_from cls r true s'
      else String c (replace_runs_from cls r false s')
  end.

Definition replace_runs (cls : ascii -> bool) (r : string) (s : string)
  : string :=
  replace_runs_from cls r false s.

(** ** Arrays *)

(** [Array.prototype.includes] on an array of strings. *)
Definition arr_includes (l : list string) (s : string) : bool :=
  existsb (String.eqb s) l.

(** [Array.prototype.slice(0, n)]. *)
Definition slice0 {A} (n : nat) (l : list A) : list A := firstn n l.

(** [Array.prototype.filter] with a callback that may throw: the
    elements are visited in order and the first throw aborts. *)
Fixpoint filter_throwing {A} (f : A -> completion bool) (l : list A)
  : completion (list A) :=
  match l with
  | [] => Normal []
  | x :: l' =>
      bind (f x) (fun b =>
      bind (filter_throwing f l') (fun r =>
      Normal (if b then x :: r else r)))
  end.

(** [Array.prototype.sort] with a comparator: ECMAScript requires the
    sort to be stable, and with a consistent comparator the result is
    the one stable ordering of the elements, whatever algorithm the
    engine runs.  It is computed here by insertion: [x] goes before
    the first [y] with [cmp x y <= 0]. *)
Fixpoint insert {A} (cmp : A -> A -> Z) (x : A) (l : list A) : list A :=
  match l with
  | [] => [x]
  | y :: l' =>
      if (cmp x y <=? 0)%Z then x :: y :: l' else y :: insert cmp x l'
  end.

Definition sort {A} (cmp : A -> A -> Z) (l : list A) : list A :=
  fold_right (insert cmp) [] l.

End Js.

Import Js.

(* ================================================================== *)
(** * URLSearchParams *)
(* ================================================================== *)

(** The query string as the ordered list of its name-value pairs; a name
    may occur more than once ([?name=a&name=b]). *)
Module URLSearchParams.

Definition t : Type := list (string * string).

(** [get(name)]: the value of the first pair with this name, or null. *)
Fixpoint get (p : t) (name : string) : option string :=
  match p with
  | [] => None
  | (k, v) :: p' => if String.eqb k name then Some v else get p' name
  end.

(** [delete(name)]: removes every pair with this name. *)
Definition delete (p : t) (name : string) : t :=
  List.filter (fun kv => negb (String.eqb (fst kv) name)) p.

(** [set(name, value)]: the first pair with this name takes the value
    and the other pairs with this name are removed; without such a
    pair, a new one is appended. *)
Fixpoint set (p : t) (name value : string) : t :=
  match p with
  | [] => [(name, value)]
  | (k, v) :: p' =>
      if String.eqb k name then (k, value) :: delete p' name
      else (k, v) :: set p' name value
  end.

End URLSearchParams.

(* ================================================================== *)
(** * Data model *)
(* ================================================================== *)

(** The [speciality] field as it arrives in the payload: an array of
    strings, or anything else (absent, null, a string, a number, an
    object), which has no array methods. *)
Inductive speciality_field : Type :=
| SpecArray (l : list string)
| SpecMalformed.

(** A record of the payload.  [name] and [mode] are strings, as the
    interface declares them and the filters use them
    ([d.name.toLowerCase()], [d.mode.toLowerCase()]): a record without
    them is outside this model.  [speciality] is the one field taken as
    it may arrive; the display fields are optional. *)
Record Doctor : Type := mkDoctor {
  name : string;
  mode : string;
  speciality : speciality_field;
  qualification : option string;
  hospital : option string;
  location : option string;
  languages : option (list string);
  experience : Z;
  fees : Z
}.

Definition SPECIALTIES : list string :=
  [ "General Physician"; "Dentist"; "Dermatologist"; "Paediatrician";
    "Gynaecologist"; "ENT"; "Diabetologist"; "Cardiologist";
    "Physiotherapist"; "Endocrinologist"; "Orthopaedic"; "Ophthalmologist";
    "Gastroenterologist"; "Pulmonologist"; "Psychiatrist"; "Urologist";
    "Dietitian/Nutritionist"; "Psychologist"; "Sexologist"; "Nephrologist";
    "Neurologist"; "Oncologist"; "Ayurveda"; "Homeopath" ].

(** The second argument of [updateParam]: [string | string[]], or left
    out. *)
Inductive ParamValue : Type :=
| VUndefined
| VString (s : string)
| VArray (l : list string).

(** [!value]: undefined and the empty string are falsy, an array never
    is. *)
Definition falsy (value : ParamValue) : bool :=
  match value with
  | VUndefined => true
  | VString s => negb (truthy s)
  | VArray _ => false
  end.

(** [Array.isArray(value) && value.length === 0]. *)
Definition is_empty_array (value : ParamValue) : bool :=
  match value with
  | VArray l => Nat.eqb (List.length l) 0
  | _ => false
  end.

(** [Array.isArray(value) ? value.join(",") : value]. *)
Definition param_string (value : ParamValue) : string :=
  match value with
  | VArray l => join "," l
  | VString s => s
  | VUndefined => "undefined"
  end.

(** [searchParams.get(key) || ""]. *)
Definition get_or_empty (searchParams : URLSearchParams.t) (key : string)
  : string :=
  match URLSearchParams.get searchParams key with
  | Some s => s
  | None => ""
  end.

(** [searchParams.get("specialty")?.split(",") || []]: an array is
    truthy, so the fallback is taken only when the key is absent. *)
Definition get_specs (searchParams : URLSearchParams.t) : list string :=
  match URLSearchParams.get searchParams "specialty" with
  | Some s => split "," s
  | None => []
  end.

(** The checkbox handler's next selection:
    [specs.includes(spec) ? specs.filter(s => s !== spec) : [...specs, spec]]. *)
Definition toggle (specs : list string) (spec : string) : list string :=
  if arr_includes specs spec
  then List.filter (fun s => negb (String.eqb s spec)) specs
  else specs ++ [spec].

(** [x || "N/A"] on an optional string. *)
Definition or_NA (x : option string) : string :=
  match x with
  | Some s => if truthy s then s else "N/A"
  | None => "N/A"
  end.

(* ================================================================== *)
(** * Variant 1: src/src/App.tsx *)
(* ================================================================== *)

Module App.

Definition nameQuery (searchParams : URLSearchParams.t) : string :=
  get_or_empty searchParams "name".

Definition moc (searchParams : URLSearchParams.t) : string :=
  get_or_empty searchParams "moc".

Definition specs (searchParams : URLSearchParams.t) : list string :=
  get_specs searchParams.

Definition sort (searchParams : URLSearchParams.t) : string :=
  get_or_empty searchParams "sort".

(** Derived: suggestions for autocomplete. *)
Definition suggestions (doctors : list Doctor)
           (searchParams : URLSearchParams.t) : list Doctor :=
  let nameQuery := nameQuery searchParams in
  if negb (truthy nameQuery) then []
  else
    slice0 3
      (List.filter
         (fun d => includes (toLowerCase (name d)) (toLowerCase nameQuery))
         doctors).

(** [d.speciality.some(f)]: a TypeError unless the field is an array. *)
Definition speciality_some (d : Doctor) (f : string -> bool)
  : completion bool :=
  match speciality d with
  | SpecArray l => Normal (existsb f l)
  | SpecMalformed => Throw
  end.

(** Derived: filtered list. *)
Definition filtered (doctors : list Doctor)
           (searchParams : URLSearchParams.t) : completion (list Doctor) :=
  let nameQuery := nameQuery searchParams in
  let moc := moc searchParams in
  let specs := specs searchParams in
  let sort := sort searchParams in
  let result := doctors in
  let result :=
    if truthy nameQuery then
      let q := toLowerCase nameQuery in
      List.filter (fun d => includes (toLowerCase (name d)) q) result
    else result in
  let result :=
    if truthy moc then
      let m := toLowerCase moc in
      List.filter (fun d => String.eqb (toLowerCase (mode d)) m) result
    else result in
  bind
    (if negb (Nat.eqb (List.length specs) 0) then
       filter_throwing
         (fun d => speciality_some d (fun s => arr_includes specs s))
         result
     else Normal result)
    (fun result =>
       Normal
         (if String.eqb sort "fees" then
            Js.sort (fun a b => (fees a - fees b)%Z) result
          else if String.eqb sort "experience" then
            Js.sort (fun a b => (experience b - experience a)%Z) result
          else result)).

(** Update a query param. *)
Definition updateParam (searchParams : URLSearchParams.t)
           (key : string) (value : ParamValue) : URLSearchParams.t :=
  let params := searchParams in
  if falsy value || is_empty_array value then
    URLSearchParams.delete params key
  else
    URLSearchParams.set params key (param_string value).

(** The [onChange] handler of a specialty checkbox. *)
Definition onSpecialtyChange (searchParams : URLSearchParams.t)
           (spec : string) : URLSearchParams.t :=
  let next := toggle (specs searchParams) spec in
  updateParam searchParams "specialty" (VArray next).

(** The [onClick] handler of a suggestion item. *)
Definition onSuggestionClick (searchParams : URLSearchParams.t)
           (s : Doctor) : URLSearchParams.t :=
  updateParam searchParams "name" (VString (name s)).

(** [spec.replace(/[ /]+/g, "-")] and the checkbox's test id. *)
Definition specialty_id (spec : string) : string :=
  replace_runs (fun c => Ascii.eqb c " " || Ascii.eqb c "/") "-" spec.

Definition specialty_testid (spec : string) : string :=
  "filter-specialty-" ++ specialty_id spec.

(** Text of the card's specialty line: [doc.speciality.join(", ")]. *)
Definition card_specialty (doc : Doctor) : completion string :=
  match speciality doc with
  | SpecArray l => Normal (join ", " l)
  | SpecMalformed => Throw
  end.

(** [doc.languages?.join(", ") || "N/A"]. *)
Definition card_languages (doc : Doctor) : string :=
  or_NA (option_map (join ", ") (languages doc)).

End App.

(* ================================================================== *)
(** * Variant 2: src/unnamed/part_000 *)
(* ================================================================== *)

Module Part000.

(** The component's state: the fetched list, the search box's text, the
    suggestions, and the URL parameters. *)
Record State : Type := mkState {
  data : list Doctor;
  query : string;
  suggestions : list Doctor;
  searchParams : URLSearchParams.t
}.

Definition moc (searchParams : URLSearchParams.t) : string :=
  get_or_empty searchParams "moc".

Definition specs (searchParams : URLSearchParams.t) : list string :=
  get_specs searchParams.

Definition sort (searchParams : URLSearchParams.t) : string :=
  get_or_empty searchParams "sort".

(** [Array.isArray(d.speciality) && specs.every(s => d.speciality.includes(s))]. *)
Definition speciality_every (specs : list string) (d : Doctor) : bool :=
  match speciality d with
  | SpecArray l => forallb (fun s => arr_includes l s) specs
  | SpecMalformed => false
  end.

(** The list the filter effect stores in [filtered]. *)
Definition filtered (st : State) : list Doctor :=
  let query := query st in
  let moc := moc (searchParams st) in
  let specs := specs (searchParams st) in
  let sort := sort (searchParams st) in
  let result := data st in
  let result :=
    if truthy query then
      List.filter
        (fun d => includes (toLowerCase (name d)) (toLowerCase query))
        result
    else result in
  let result :=
    if truthy moc then
      List.filter (fun d => String.eqb (mode d) moc) result
    else result in
  let result :=
    if negb (Nat.eqb (List.length specs) 0) then
      List.filter (speciality_every specs) result
    else result in
  let result :=
    if String.eqb sort "fees" then
      Js.sort (fun a b => (fees a - fees b)%Z) result
    else result in
  let result :=
    if String.eqb sort "experience" then
      Js.sort (fun a b => (experience b - experience a)%Z) result
    else result in
  result.

Definition handleSearch (st : State) (value : string) : State :=
  let st := mkState (data st) value (suggestions st) (searchParams st) in
  if negb (truthy value) then
    mkState (data st) (query st) [] (searchParams st)
  else
    let match_ :=
      slice0 3
        (List.filter
           (fun d => includes (toLowerCase (name d)) (toLowerCase value))
           (data st)) in
    mkState (data st) (query st) match_ (searchParams st).

(** The [onClick] handler of a suggestion item: [setQuery(s.name)]. *)
Definition onSuggestionClick (st : State) (s : Doctor) : State :=
  mkState (data st) (name s) (suggestions st) (searchParams st).

Definition updateParam (searchParams : URLSearchParams.t)
           (key : string) (value : ParamValue) : URLSearchParams.t :=
  let newParams := searchParams in
  if falsy value || is_empty_array value then
    URLSearchParams.delete newParams key
  else
    URLSearchParams.set newParams key (param_string value).

(** The [onChange] handler of a specialty checkbox. *)
Definition onSpecialtyChange (searchParams : URLSearchParams.t)
           (spec : string) : URLSearchParams.t :=
  let newSpecs := toggle (specs searchParams) spec in
  updateParam searchParams "specialty" (VArray newSpecs).

(** [spec.replaceAll("/", "-").replaceAll(" ", "-")] and the
    checkbox's test id. *)
Definition specialty_id (spec : string) : string :=
  replaceAll " " "-" (replaceAll "/" "-" spec).

Definition specialty_testid (spec : string) : string :=
  "filter-specialty-" ++ specialty_id spec.

(** The mode radio's test id:
    [`filter-${mode.toLowerCase().replace(" ", "-")}`]. *)
Definition mode_testid (mode : string) : string :=
  "filter-" ++ replace_first " " "-" (toLowerCase mode).

(** Text of the card's specialty line:
    [Array.isArray(doc.speciality) ? doc.speciality.join(", ") : "N/A"]. *)
Definition card_specialty (doc : Doctor) : string :=
  match speciality doc with
  | SpecArray l => join ", " l
  | SpecMalformed => "N/A"
  end.

End Part000.

(* ================================================================== *)
(** * Vocabulary of the specification *)
(* ================================================================== *)

(** Two code units are the same letter up to case: they are equal, or
    one is an upper-case letter and the other its lower-case form. *)
Definition same_letter (a b : ascii) : Prop :=
  a = b \/
  (is_upper a = true /\ b = to_lower_char a) \/
  (is_upper b = true /\ a = to_lower_char b).

(** Case-insensitive equality of strings: the same length, and the same
    letter up to case at every position. *)
Inductive eq_nocase : string -> string -> Prop :=
| eq_nocase_nil : eq_nocase EmptyString EmptyString
| eq_nocase_cons a b s t :
    same_letter a b -> eq_nocase s t ->
    eq_nocase (String a s) (String b t).

(** [s] contains [q] case-insensitively: some substring of [s] equals
    [q] up to case. *)
Definition contains_nocase (s q : string) : Prop :=
  exists pre mid post, s = (pre ++ mid ++ post)%string /\ eq_nocase mid q.

(** [l1] is a subsequence of [l2]: [l2] with some elements left out, the
    others in their order. *)
Inductive Subseq {A : Type} : list A -> list A -> Prop :=
| Subseq_nil : Subseq [] []
| Subseq_skip x l1 l2 : Subseq l1 l2 -> Subseq l1 (x :: l2)
| Subseq_keep x l1 l2 : Subseq l1 l2 -> Subseq (x :: l1) (x :: l2).

(** The record's [speciality] is an array. *)
Definition well_formed (d : Doctor) : Prop :=
  exists l, speciality d = SpecArray l.

(** ANY semantics: the record's specialities and the selection share an
    element. *)
Definition has_any (specs : list string) (d : Doctor) : Prop :=
  exists l s, speciality d = SpecArray l /\ In s l /\ In s specs.

(** ALL semantics: the record's specialities contain the selection. *)
Definition has_all (specs : list string) (d : Doctor) : Prop :=
  exists l, speciality d = SpecArray l /\ forall s, In s specs -> In s l.

(** Non-decreasing and non-increasing sequences of integers. *)
Definition non_decreasing (l : list Z) : Prop := Sorted Z.le l.
Definition non_increasing (l : list Z) : Prop := Sorted Z.ge l.

(** The records of [l] whose key is [k], in their order. *)
Definition with_key {A} (key : A -> Z) (k : Z) (l : list A) : list A :=
  List.filter (fun x => Z.eqb (key x) k) l.

(** [a] comes no later than [b] in the order of the key. *)
Definition key_le {A} (key : A -> Z) (a b : A) : Prop := (key a <= key b)%Z.

(** [get(key)] of the specification's store: the current string, or
    empty. *)
Definition store_get (searchParams : URLSearchParams.t) (key : string)
  : string :=
  get_or_empty searchParams key.

(** [s] holds no comma. *)
Fixpoint no_comma (s : string) : bool :=
  match s with
  | EmptyString => true
  | String c s' => negb (Ascii.eqb c ",") && no_comma s'
  end.

(** No two separators of a test id in a row. *)
Fixpoint single_separators (s : string) : bool :=
  match s with
  | EmptyString => true
  | String c s' =>
      match s' with
      | EmptyString => true
      | String c' _ =>
          negb ((Ascii.eqb c " " || Ascii.eqb c "/") &&
                (Ascii.eqb c' " " || Ascii.eqb c' "/"))
          && single_separators s'
      end
  end.

(** ** The steps of the filter, named

    Both variants run the same steps in the same order: the name test,
    the mode test, the specialty test, the sort.  They are named here so
    that the lemmas can speak of one step at a time; [App.filtered] and
    [Part000.filtered] are shown below to be their composition. *)

Definition name_test (q : string) (d : Doctor) : bool :=
  includes (toLowerCase (name d)) (toLowerCase q).

Definition name_step (q : string) (l : list Doctor) : list Doctor :=
  if truthy q then List.filter (name_test q) l else l.

(** The mode test of App.tsx: equal after [toLowerCase]. *)
Definition mode_test_lower (m : string) (d : Doctor) : bool :=
  String.eqb (toLowerCase (mode d)) (toLowerCase m).

(** The mode test of part_000: [===]. *)
Definition mode_test_strict (m : string) (d : Doctor) : bool :=
  String.eqb (mode d) m.

Definition mode_step (test : string -> Doctor -> bool) (m : string)
           (l : list Doctor) : list Doctor :=
  if truthy m then List.filter (test m) l else l.

(** The specialty test of App.tsx on a record whose field is an array. *)
Definition any_test (specs : list string) (d : Doctor) : bool :=
  match speciality d with
  | SpecArray l => existsb (fun s => arr_includes specs s) l
  | SpecMalformed => false
  end.

Definition fees_cmp (a b : Doctor) : Z := (fees a - fees b)%Z.
Definition experience_cmp (a b : Doctor) : Z :=
  (experience b - experience a)%Z.

Definition sort_step (sort : string) (l : list Doctor) : list Doctor :=
  if String.eqb sort "fees" then Js.sort fees_cmp l
  else if String.eqb sort "experience" then Js.sort experience_cmp l
  else l.

(** A record meets the active criteria: the name query [q], the mode [m]
    and the selection [specs], the last under the reading [spec_pred] of
    the variant. *)
Definition satisfies (spec_pred : list string -> Doctor -> Prop)
           (q m : string) (specs : list string) (d : Doctor) : Prop :=
  (q <> "" -> contains_nocase (name d) q) /\
  (m <> "" -> eq_nocase (mode d) m) /\
  (specs <> [] -> spec_pred specs d).

(** The same with the reading [mode_rel] of "the mode matches" left
    open: equality up to case in App.tsx, equality in part_000. *)
Definition meets (mode_rel : string -> string -> Prop)
           (spec_pred : list string -> Doctor -> Prop)
           (q m : string) (specs : list string) (d : Doctor) : Prop :=
  (q <> "" -> contains_nocase (name d) q) /\
  (m <> "" -> mode_rel (mode d) m) /\
  (specs <> [] -> spec_pred specs d).

(** The query with its sort key removed. *)
Definition without_sort (searchParams : URLSearchParams.t)
  : URLSearchParams.t :=
  URLSearchParams.delete searchParams "sort".

Definition state_without_sort (st : Part000.State) : Part000.State :=
  Part000.mkState (Part000.data st) (Part000.query st)
                  (Part000.suggestions st)
                  (without_sort (Part000.searchParams st)).

(** The query with its mode key removed. *)
Definition without_moc (searchParams : URLSearchParams.t)
  : URLSearchParams.t :=
  URLSearchParams.delete searchParams "moc".

Definition state_without_moc (st : Part000.State) : Part000.State :=
  Part000.mkState (Part000.data st) (Part000.query st)
                  (Part000.suggestions st)
                  (without_moc (Part000.searchParams st)).

(** The record's specialities are an array of terms of the vocabulary. *)
Definition in_vocabulary (d : Doctor) : Prop :=
  exists l, speciality d = SpecArray l /\
            Forall (fun s => In s SPECIALTIES) l.

(** The record's specialities, when an array, do not hold the empty
    string. *)
Definition no_empty_term (d : Doctor) : Prop :=
  forall l, speciality d = SpecArray l -> ~ In EmptyString l.

(** No string occurs twice in the list. *)
Fixpoint all_distinct (l : list string) : bool :=
  match l with
  | [] => true
  | x :: l' => negb (arr_includes l' x) && all_distinct l'
  end.

(** The separators the test ids replace. *)
Definition is_separator (c : ascii) : bool :=
  Ascii.eqb c " " || Ascii.eqb c "/".

(** A small payload used in the examples. *)
Definition doc (n m : string) (sp : speciality_field) (e f : Z) : Doctor :=
  mkDoctor n m sp None None None None e f.

(* ================================================================== *)
(** * Facts about the JavaScript primitives *)
(* ================================================================== *)

Section CaseFacts.

Lemma is_upper_spec c :
  is_upper c = true <-> 65 <= nat_of_ascii c <= 90.
Proof.
  unfold is_upper. cbv zeta.
  rewrite andb_true_iff, !Nat.leb_le. tauto.
Qed.

Lemma nat_of_to_lower_upper c :
  is_upper c = true ->
  nat_of_ascii (to_lower_char c) = nat_of_ascii c + 32.
Proof.
  intros H. unfold to_lower_char. rewrite H.
  apply is_upper_spec in H.
  apply nat_ascii_embedding. lia.
Qed.

Lemma to_lower_not_upper c : is_upper (to_lower_char c) = false.
Proof.
  destruct (is_upper c) eqn:E.
  - apply not_true_is_false. intros H.
    apply is_upper_spec in H.
    rewrite (nat_of_to_lower_upper c E) in H.
    apply is_upper_spec in E. lia.
  - unfold to_lower_char. rewrite E. exact E.
Qed.

Lemma to_lower_char_idem c :
  to_lower_char (to_lower_char c) = to_lower_char c.
Proof.
  unfold to_lower_char at 1. now rewrite to_lower_not_upper.
Qed.

Lemma to_lower_char_inj_upper a b :
  is_upper a = true -> is_upper b = true ->
  to_lower_char a = to_lower_char b -> a = b.
Proof.
  intros Ha Hb E.
  apply (f_equal nat_of_ascii) in E.
  rewrite (nat_of_to_lower_upper a Ha), (nat_of_to_lower_upper b Hb) in E.
  rewrite <- (ascii_nat_embedding a), <- (ascii_nat_embedding b).
  f_equal. lia.
Qed.

Lemma same_letter_iff a b :
  same_letter a b <-> to_lower_char a = to_lower_char b.
Proof.
  split.
  - intros [-> | [[_ ->] | [_ ->]]];
      [reflexivity | symmetry | ]; apply to_lower_char_idem.
  - intros E. unfold same_letter.
    destruct (is_upper a) eqn:Ha, (is_upper b) eqn:Hb.
    + left. now apply to_lower_char_inj_upper.
    + right. left. split; [reflexivity|].
      rewrite E. unfold to_lower_char. now rewrite Hb.
    + right. right. split; [reflexivity|].
      rewrite <- E. unfold to_lower_char. now rewrite Ha.
    + left. unfold to_lower_char in E. now rewrite Ha, Hb in E.
Qed.

Lemma eq_nocase_iff s t :
  eq_nocase s t <-> toLowerCase s = toLowerCase t.
Proof.
  split.
  - induction 1 as [| a b s t Hab _ IH]; [reflexivity|].
    cbn. apply same_letter_iff in Hab. congruence.
  - revert t. induction s as [| a s IH]; intros [| b t] E;
      cbn in E; try discriminate.
    + constructor.
    + injection E as E1 E2. constructor.
      * now apply same_letter_iff.
      * now apply IH.
Qed.

Lemma eq_nocase_refl s : eq_nocase s s.
Proof. now apply eq_nocase_iff. Qed.

Lemma toLowerCase_app s t :
  toLowerCase (s ++ t) = (toLowerCase s ++ toLowerCase t)%string.
Proof. induction s as [| c s IH]; cbn; congruence. Qed.

Lemma toLowerCase_idem s : toLowerCase (toLowerCase s) = toLowerCase s.
Proof.
  induction s as [| c s IH]; cbn; [reflexivity|].
  now rewrite to_lower_char_idem, IH.
Qed.

(** A split of the lower-cased string is the image of a split of the
    string. *)
Lemma toLowerCase_split x : forall s y,
  toLowerCase s = (x ++ y)%string ->
  exists s1 s2,
    s = (s1 ++ s2)%string /\ toLowerCase s1 = x /\ toLowerCase s2 = y.
Proof.
  induction x as [| c x IH]; intros s y E.
  - exists EmptyString, s. now cbn in *.
  - destruct s as [| a s]; cbn in E; [discriminate|].
    injection E as E1 E2.
    destruct (IH _ _ E2) as (s1 & s2 & -> & H1 & H2).
    exists (String a s1), s2. cbn. now rewrite E1, H1, H2.
Qed.

End CaseFacts.

Section SubstringFacts.

Lemma startsWith_iff : forall q s,
  startsWith s q = true <-> exists post, s = (q ++ post)%string.
Proof.
  induction q as [| a q IH]; intros s.
  - destruct s; cbn; split; eauto.
  - destruct s as [| b s]; cbn.
    + split; [discriminate | intros [post E]; discriminate].
    + rewrite andb_true_iff, Ascii.eqb_eq, IH. split.
      * intros [-> [post ->]]. now exists post.
      * intros [post E]. injection E as -> ->. eauto.
Qed.

Lemma includes_iff : forall s q,
  includes s q = true <->
  exists pre post, s = (pre ++ q ++ post)%string.
Proof.
  induction s as [| b s IH]; intros q.
  - cbn [includes]. rewrite orb_false_r, startsWith_iff. split.
    + intros [post E]. now exists EmptyString, post.
    + intros ([| c pre] & post & E); cbn in E; [eauto | discriminate].
  - cbn [includes]. rewrite orb_true_iff, startsWith_iff, IH. split.
    + intros [[post E] | (pre & post & ->)].
      * now exists EmptyString, post.
      * now exists (String b pre), post.
    + intros ([| c pre] & post & E); cbn in E.
      * left. eauto.
      * injection E as -> ->. right. eauto.
Qed.

Lemma includes_refl s : includes s s = true.
Proof.
  apply includes_iff. exists EmptyString, EmptyString.
  cbn. clear. induction s; cbn; congruence.
Qed.

Lemma includes_empty s : includes s EmptyString = true.
Proof. destruct s; reflexivity. Qed.

(** The test the filters run is the specification's case-insensitive
    containment. *)
Lemma includes_lower_iff s q :
  includes (toLowerCase s) (toLowerCase q) = true <-> contains_nocase s q.
Proof.
  rewrite includes_iff. unfold contains_nocase. split.
  - intros (pre & post & E).
    destruct (toLowerCase_split _ _ _ E) as (s1 & s' & -> & H1 & E').
    destruct (toLowerCase_split _ _ _ E') as (s2 & s3 & -> & H2 & H3).
    exists s1, s2, s3. split; [reflexivity|].
    now apply eq_nocase_iff.
  - intros (pre & mid & post & -> & H).
    apply eq_nocase_iff in H.
    exists (toLowerCase pre), (toLowerCase post).
    now rewrite !toLowerCase_app, H.
Qed.

End SubstringFacts.

Section SubseqFacts.

Context {A : Type}.

Lemma Subseq_refl (l : list A) : Subseq l l.
Proof. induction l; constructor; assumption. Qed.

Lemma Subseq_trans (l1 l2 l3 : list A) :
  Subseq l1 l2 -> Subseq l2 l3 -> Subseq l1 l3.
Proof.
  intros H12 H23. revert l1 H12.
  induction H23 as [| x l2 l3 _ IH | x l2 l3 _ IH]; intros l1 H12.
  - assumption.
  - constructor. now apply IH.
  - inversion H12; subst; constructor; now apply IH.
Qed.

Lemma Subseq_filter (f : A -> bool) (l : list A) :
  Subseq (List.filter f l) l.
Proof.
  induction l as [| x l IH]; cbn; [constructor|].
  destruct (f x); now constructor.
Qed.

Lemma Subseq_nil_l (l : list A) : Subseq [] l.
Proof. induction l; constructor; assumption. Qed.

Lemma Subseq_firstn (n : nat) (l : list A) : Subseq (firstn n l) l.
Proof.
  revert n. induction l as [| x l IH]; intros [| n]; cbn.
  - constructor.
  - constructor.
  - apply Subseq_nil_l.
  - apply Subseq_keep, IH.
Qed.

Lemma Subseq_In (l1 l2 : list A) x : Subseq l1 l2 -> In x l1 -> In x l2.
Proof.
  induction 1; cbn; intros Hin; auto.
  destruct Hin; auto.
Qed.

End SubseqFacts.

Section ThrowingFilter.

Context {A : Type}.

(** When the callback throws on no element, the throwing filter is the
    plain filter. *)
Lemma filter_throwing_normal (f : A -> completion bool) (g : A -> bool)
      (l : list A) :
  Forall (fun x => f x = Normal (g x)) l ->
  filter_throwing f l = Normal (List.filter g l).
Proof.
  induction 1 as [| x l Hx _ IH]; cbn; [reflexivity|].
  now rewrite Hx, IH.
Qed.

(** It throws exactly when the callback throws on some element. *)
Lemma filter_throwing_throw (f : A -> completion bool) (l : list A) :
  filter_throwing f l = Throw <-> Exists (fun x => f x = Throw) l.
Proof.
  induction l as [| x l IH]; cbn.
  - split; [discriminate | intros H; inversion H].
  - rewrite Exists_cons. destruct (f x) as [b|]; cbn.
    + destruct (filter_throwing f l); cbn; split.
      * discriminate.
      * intros [H | H]; [discriminate | now apply IH in H].
      * intros _. right. now apply IH.
      * reflexivity.
    + split; auto.
Qed.

(** Whatever it returns is the sublist of the elements accepted. *)
Lemma filter_throwing_result (f : A -> completion bool) (l r : list A) :
  filter_throwing f l = Normal r ->
  Subseq r l /\ Forall (fun x => f x = Normal true) r.
Proof.
  revert r. induction l as [| x l IH]; cbn; intros r E.
  - injection E as <-. split; constructor.
  - destruct (f x) as [b|] eqn:Ex; cbn in E; [|discriminate].
    destruct (filter_throwing f l) as [r'|]; cbn in E; [|discriminate].
    injection E as <-. destruct (IH _ eq_refl) as [Hs Hf].
    destruct b; split.
    + now apply Subseq_keep.
    + now constructor.
    + now apply Subseq_skip.
    + assumption.
Qed.

End ThrowingFilter.

Section SortFacts.

Context {A : Type}.
Variable cmp : A -> A -> Z.

Lemma insert_perm x l : Permutation (insert cmp x l) (x :: l).
Proof.
  induction l as [| y l IH]; cbn; [reflexivity|].
  destruct (cmp x y <=? 0)%Z; [reflexivity|].
  rewrite IH. apply perm_swap.
Qed.

Lemma sort_perm l : Permutation (Js.sort cmp l) l.
Proof.
  induction l as [| x l IH]; cbn; [reflexivity|].
  fold (Js.sort cmp l). rewrite insert_perm. now constructor.
Qed.

Lemma sort_In l x : In x (Js.sort cmp l) <-> In x l.
Proof.
  split; apply Permutation_in;
    [apply sort_perm | symmetry; apply sort_perm].
Qed.

Lemma sort_Forall (P : A -> Prop) l :
  Forall P l -> Forall P (Js.sort cmp l).
Proof.
  rewrite !Forall_forall. intros H x Hx. apply H.
  now apply sort_In.
Qed.

Lemma sort_length l : List.length (Js.sort cmp l) = List.length l.
Proof. apply Permutation_length, sort_perm. Qed.

(** The comparator is the difference of an integer key. *)
Variable key : A -> Z.
Hypothesis cmp_key : forall a b, cmp a b = (key a - key b)%Z.

Lemma cmp_le a b : (cmp a b <=? 0)%Z = true <-> key_le key a b.
Proof. unfold key_le. rewrite cmp_key, Z.leb_le. lia. Qed.

Lemma insert_sorted x l :
  StronglySorted (key_le key) l -> StronglySorted (key_le key) (insert cmp x l).
Proof.
  induction 1 as [| y l Hs IH Hy]; cbn.
  - repeat constructor.
  - destruct (cmp x y <=? 0)%Z eqn:E.
    + apply cmp_le in E. constructor; [now constructor|].
      constructor; [assumption|].
      eapply Forall_impl; [|exact Hy].
      unfold key_le in *. intros; lia.
    + constructor; [assumption|].
      eapply Permutation_Forall; [symmetry; apply insert_perm|].
      constructor; [|assumption].
      assert ((cmp x y <=? 0)%Z <> true) as N by congruence.
      rewrite cmp_le in N. unfold key_le in *. lia.
Qed.

Lemma sort_sorted l : StronglySorted (key_le key) (Js.sort cmp l).
Proof.
  induction l as [| x l IH]; cbn; [constructor|].
  now apply insert_sorted.
Qed.

(** Inserting in front of a list whose head is not smaller. *)
Lemma insert_head x l :
  Forall (key_le key x) l -> insert cmp x l = x :: l.
Proof.
  destruct 1 as [| y l Hy _]; cbn; [reflexivity|].
  apply cmp_le in Hy. now rewrite Hy.
Qed.

(** A sorted list is left as it is. *)
Lemma sort_sorted_id l : StronglySorted (key_le key) l -> Js.sort cmp l = l.
Proof.
  induction 1 as [| x l _ IH Hx]; cbn; [reflexivity|].
  fold (Js.sort cmp l). rewrite IH. now apply insert_head.
Qed.

Lemma sort_idem l : Js.sort cmp (Js.sort cmp l) = Js.sort cmp l.
Proof. apply sort_sorted_id, sort_sorted. Qed.

(** Stability: the records of one key keep their order. *)
Lemma insert_with_key k x l :
  with_key key k (insert cmp x l) =
  if (key x =? k)%Z then x :: with_key key k l else with_key key k l.
Proof.
  unfold with_key.
  induction l as [| y l IH]; cbn; [reflexivity|].
  destruct (cmp x y <=? 0)%Z eqn:E; cbn; [reflexivity|].
  rewrite IH.
  assert ((cmp x y <=? 0)%Z <> true) as N by congruence.
  rewrite cmp_le in N. unfold key_le in N.
  destruct (key x =? k)%Z eqn:Ex; [|reflexivity].
  apply Z.eqb_eq in Ex.
  destruct (key y =? k)%Z eqn:Ey; [|reflexivity].
  apply Z.eqb_eq in Ey. lia.
Qed.

Lemma sort_stable k l :
  with_key key k (Js.sort cmp l) = with_key key k l.
Proof.
  induction l as [| x l IH]; [reflexivity|].
  change (Js.sort cmp (x :: l)) with (insert cmp x (Js.sort cmp l)).
  rewrite insert_with_key, IH.
  unfold with_key. cbn. reflexivity.
Qed.

(** Filtering commutes with sorting. *)
Lemma filter_insert (p : A -> bool) x l :
  StronglySorted (key_le key) l ->
  List.filter p (insert cmp x l) =
  if p x then insert cmp x (List.filter p l) else List.filter p l.
Proof.
  induction 1 as [| y l Hs IH Hy]; cbn.
  - destruct (p x); reflexivity.
  - destruct (cmp x y <=? 0)%Z eqn:E; cbn.
    + destruct (p x) eqn:Px; [|reflexivity].
      symmetry. apply cmp_le in E.
      assert (Forall (key_le key x) (y :: l)) as F.
      { constructor; [assumption|].
        eapply Forall_impl; [|exact Hy].
        unfold key_le in *. intros; lia. }
      destruct (p y) eqn:Py.
      * apply insert_head.
        rewrite Forall_forall in *. intros z Hz. apply F.
        destruct Hz as [<- | Hz]; [now left|].
        right. now apply filter_In in Hz.
      * apply insert_head.
        rewrite Forall_forall in *. intros z Hz. apply F.
        right. now apply filter_In in Hz.
    + rewrite IH. destruct (p y) eqn:Py, (p x) eqn:Px; cbn;
        try rewrite E; reflexivity.
Qed.

Lemma filter_sort (p : A -> bool) l :
  List.filter p (Js.sort cmp l) = Js.sort cmp (List.filter p l).
Proof.
  induction l as [| x l IH]; cbn; [reflexivity|].
  fold (Js.sort cmp l).
  rewrite filter_insert by apply sort_sorted.
  rewrite IH. destruct (p x); reflexivity.
Qed.

End SortFacts.

Lemma StronglySorted_map {A B} (R : A -> A -> Prop) (S : B -> B -> Prop)
      (f : A -> B) l :
  (forall a b, R a b -> S (f a) (f b)) ->
  StronglySorted R l -> Sorted S (List.map f l).
Proof.
  intros HRS H. apply StronglySorted_Sorted.
  induction H as [| x l _ IH Hx]; cbn; constructor; [assumption|].
  rewrite Forall_map. eapply Forall_impl; [|exact Hx].
  cbn. auto.
Qed.

Section ParamsFacts.

Import URLSearchParams.

Lemma get_delete_same p k : get (delete p k) k = None.
Proof.
  unfold delete. induction p as [| [k' v] p IH]; cbn; [reflexivity|].
  destruct (String.eqb k' k) eqn:E; cbn; [assumption|].
  now rewrite E.
Qed.

Lemma get_delete_other p k k' :
  k <> k' -> get (delete p k) k' = get p k'.
Proof.
  intros N. unfold delete. induction p as [| [k0 v] p IH]; cbn; [reflexivity|].
  destruct (String.eqb k0 k) eqn:E; cbn.
  - apply String.eqb_eq in E. subst k0.
    apply String.eqb_neq in N. now rewrite N.
  - now rewrite IH.
Qed.

Lemma get_set_same p k v : get (set p k v) k = Some v.
Proof.
  induction p as [| [k' v'] p IH]; cbn.
  - now rewrite String.eqb_refl.
  - destruct (String.eqb k' k) eqn:E; cbn; now rewrite E.
Qed.

Lemma get_set_other p k v k' :
  k <> k' -> get (set p k v) k' = get p k'.
Proof.
  intros N. induction p as [| [k0 v0] p IH]; cbn.
  - apply String.eqb_neq in N. now rewrite N.
  - destruct (String.eqb k0 k) eqn:E; cbn.
    + apply String.eqb_eq in E. subst k0.
      apply String.eqb_neq in N. rewrite N.
      now apply get_delete_other; apply String.eqb_neq.
    + now rewrite IH.
Qed.

(** The pairs of a name. *)
Lemma delete_none p k :
  List.filter (fun kv => String.eqb (fst kv) k) (delete p k) = [].
Proof.
  unfold delete. induction p as [| [k' v] p IH]; cbn; [reflexivity|].
  destruct (String.eqb k' k) eqn:E; cbn; [assumption|].
  now rewrite E.
Qed.

Lemma set_one p k v :
  List.filter (fun kv => String.eqb (fst kv) k) (set p k v) = [(k, v)].
Proof.
  induction p as [| [k' v'] p IH]; cbn.
  - now rewrite String.eqb_refl.
  - destruct (String.eqb k' k) eqn:E; cbn; rewrite E.
    + apply String.eqb_eq in E. subst k'. now rewrite delete_none.
    + assumption.
Qed.

Lemma delete_other_pairs p k k' :
  k <> k' ->
  List.filter (fun kv => String.eqb (fst kv) k') (delete p k) =
  List.filter (fun kv => String.eqb (fst kv) k') p.
Proof.
  intros N. unfold delete.
  induction p as [| [k0 v] p IH]; cbn; [reflexivity|].
  destruct (String.eqb k0 k) eqn:E; cbn.
  - apply String.eqb_eq in E. subst k0.
    apply String.eqb_neq in N. now rewrite N.
  - now rewrite IH.
Qed.

Lemma set_other_pairs p k v k' :
  k <> k' ->
  List.filter (fun kv => String.eqb (fst kv) k') (set p k v) =
  List.filter (fun kv => String.eqb (fst kv) k') p.
Proof.
  intros N. induction p as [| [k0 v0] p IH]; cbn.
  - apply String.eqb_neq in N. now rewrite N.
  - destruct (String.eqb k0 k) eqn:E; cbn.
    + apply String.eqb_eq in E. subst k0.
      pose proof N as N'. apply String.eqb_neq in N'. rewrite N'.
      now apply delete_other_pairs.
    + now rewrite IH.
Qed.

End ParamsFacts.

Section SplitJoinFacts.

Lemma split_not_nil sep s : split sep s <> [].
Proof.
  destruct s as [| c s]; cbn; [discriminate|].
  destruct (Ascii.eqb c sep); [discriminate|].
  destruct (split sep s); discriminate.
Qed.

Lemma join_cons_char sep c h t :
  join sep (String c h :: t) = String c (join sep (h :: t)).
Proof. destruct t; reflexivity. Qed.

(** Joining what a split gave returns the string. *)
Lemma join_split c s :
  join (String c EmptyString) (split c s) = s.
Proof.
  induction s as [| a s IH]; cbn [split]; [reflexivity|].
  destruct (Ascii.eqb a c) eqn:E.
  - apply Ascii.eqb_eq in E. subst a.
    pose proof (split_not_nil c s) as N.
    destruct (split c s) as [| h t]; [contradiction|].
    cbn [join]. cbn. now rewrite <- IH.
  - pose proof (split_not_nil c s) as N.
    destruct (split c s) as [| h t]; [contradiction|].
    now rewrite join_cons_char, IH.
Qed.

Lemma split_no_comma x : no_comma x = true -> split "," x = [x].
Proof.
  induction x as [| c x IH]; cbn; [reflexivity|].
  rewrite andb_true_iff, negb_true_iff. intros [E H].
  now rewrite E, (IH H).
Qed.

Lemma split_app_comma x rest :
  no_comma x = true ->
  split "," (x ++ "," ++ rest) = x :: split "," rest.
Proof.
  induction x as [| c x IH]; cbn; [reflexivity|].
  rewrite andb_true_iff, negb_true_iff. intros [E H].
  rewrite E. cbn in IH. now rewrite (IH H).
Qed.

(** Splitting a join of comma-free strings returns the strings. *)
Lemma split_join l :
  l <> [] -> forallb no_comma l = true -> split "," (join "," l) = l.
Proof.
  induction l as [| x l IH]; [congruence|]. intros _ H.
  cbn in H. apply andb_true_iff in H as [Hx Hl].
  destruct l as [| y l].
  - cbn. now apply split_no_comma.
  - cbn [join]. rewrite split_app_comma by assumption.
    f_equal. apply IH; [discriminate | assumption].
Qed.

End SplitJoinFacts.

(* ================================================================== *)
(** * Facts about the steps of the two variants *)
(* ================================================================== *)

Section StepFacts.

Lemma truthy_iff s : truthy s = true <-> s <> EmptyString.
Proof. destruct s; cbn; split; congruence. Qed.

Lemma truthy_false_iff s : truthy s = false <-> s = EmptyString.
Proof. destruct s; cbn; split; congruence. Qed.

Lemma nonempty_iff {A} (l : list A) :
  negb (Nat.eqb (List.length l) 0) = true <-> l <> [].
Proof. destruct l; cbn; split; congruence. Qed.

Lemma Forall_Subseq {A} (P : A -> Prop) l1 l2 :
  Subseq l1 l2 -> Forall P l2 -> Forall P l1.
Proof.
  rewrite !Forall_forall. intros H F x Hx. apply F.
  eapply Subseq_In; eassumption.
Qed.

Lemma filter_Forall_test {A} (f : A -> bool) l :
  Forall (fun x => f x = true) (List.filter f l).
Proof. apply Forall_forall. intros x Hx. now apply filter_In in Hx. Qed.

Lemma filter_all_true {A} (f : A -> bool) l :
  Forall (fun x => f x = true) l -> List.filter f l = l.
Proof.
  induction 1 as [| x l Hx _ IH]; cbn; [reflexivity|].
  now rewrite Hx, IH.
Qed.

Lemma filter_comm {A} (f g : A -> bool) l :
  List.filter f (List.filter g l) = List.filter g (List.filter f l).
Proof.
  induction l as [| x l IH]; cbn; [reflexivity|].
  destruct (f x) eqn:Ef, (g x) eqn:Eg; cbn;
    rewrite ?Ef, ?Eg, IH; reflexivity.
Qed.

Lemma filter_idem {A} (f : A -> bool) l :
  List.filter f (List.filter f l) = List.filter f l.
Proof. apply filter_all_true, filter_Forall_test. Qed.

(** *** The name step *)

Lemma name_test_iff q d :
  name_test q d = true <-> contains_nocase (name d) q.
Proof. apply includes_lower_iff. Qed.

Lemma name_step_Subseq q l : Subseq (name_step q l) l.
Proof.
  unfold name_step. destruct (truthy q);
    [apply Subseq_filter | apply Subseq_refl].
Qed.

Lemma name_step_Forall q l :
  Forall (fun d => contains_nocase (name d) q) (name_step q l).
Proof.
  unfold name_step. destruct (truthy q) eqn:E.
  - eapply Forall_impl; [|apply filter_Forall_test].
    intros d. apply name_test_iff.
  - apply truthy_false_iff in E. subst q.
    apply Forall_forall. intros d _.
    exists EmptyString, EmptyString, (name d).
    split; [reflexivity | constructor].
Qed.

(** *** The mode step *)

Lemma mode_test_lower_iff m d :
  mode_test_lower m d = true <-> eq_nocase (mode d) m.
Proof.
  unfold mode_test_lower. now rewrite String.eqb_eq, eq_nocase_iff.
Qed.

Lemma mode_test_strict_iff m d :
  mode_test_strict m d = true <-> mode d = m.
Proof. apply String.eqb_eq. Qed.

Lemma mode_step_Subseq test m l : Subseq (mode_step test m l) l.
Proof.
  unfold mode_step. destruct (truthy m);
    [apply Subseq_filter | apply Subseq_refl].
Qed.

Lemma mode_step_Forall test m l :
  Forall (fun d => m <> EmptyString -> test m d = true)
         (mode_step test m l).
Proof.
  unfold mode_step. destruct (truthy m) eqn:E.
  - eapply Forall_impl; [|apply filter_Forall_test]. cbn. auto.
  - apply truthy_false_iff in E. apply Forall_forall. congruence.
Qed.

(** *** The specialty step *)

Lemma any_test_iff specs d :
  any_test specs d = true <-> has_any specs d.
Proof.
  unfold any_test, has_any, arr_includes.
  destruct (speciality d) as [l|]; split.
  - rewrite existsb_exists. intros (s & Hs & H).
    apply existsb_exists in H as (s' & Hs' & E).
    apply String.eqb_eq in E. subst s'. eauto.
  - intros (l' & s & E & Hl & Hs). injection E as <-.
    apply existsb_exists. exists s. split; [assumption|].
    apply existsb_exists. exists s. split; [assumption|].
    apply String.eqb_refl.
  - discriminate.
  - intros (l' & s & E & _). discriminate.
Qed.

Lemma speciality_every_iff specs d :
  Part000.speciality_every specs d = true <-> has_all specs d.
Proof.
  unfold Part000.speciality_every, has_all, arr_includes.
  destruct (speciality d) as [l|]; split.
  - rewrite forallb_forall. intros H. exists l. split; [reflexivity|].
    intros s Hs. apply H in Hs.
    apply existsb_exists in Hs as (s' & Hs' & E).
    apply String.eqb_eq in E. now subst s'.
  - intros (l' & E & H). injection E as <-.
    apply forallb_forall. intros s Hs.
    apply existsb_exists. exists s. split; [now apply H|].
    apply String.eqb_refl.
  - discriminate.
  - intros (l' & E & _). discriminate.
Qed.

Lemma speciality_some_well_formed specs d :
  well_formed d ->
  App.speciality_some d (fun s => arr_includes specs s) =
  Normal (any_test specs d).
Proof.
  intros [l E]. unfold App.speciality_some, any_test. now rewrite E.
Qed.

Lemma speciality_some_true specs d :
  App.speciality_some d (fun s => arr_includes specs s) = Normal true ->
  has_any specs d.
Proof.
  intros H. apply any_test_iff.
  unfold App.speciality_some, any_test in *.
  destruct (speciality d); congruence.
Qed.

Lemma speciality_some_throw specs d :
  App.speciality_some d (fun s => arr_includes specs s) = Throw <->
  speciality d = SpecMalformed.
Proof.
  unfold App.speciality_some. destruct (speciality d); split; congruence.
Qed.

(** *** The sort step *)

Lemma fees_cmp_key a b : fees_cmp a b = (fees a - fees b)%Z.
Proof. reflexivity. Qed.

Lemma experience_cmp_key a b :
  experience_cmp a b = ((- experience a) - (- experience b))%Z.
Proof. unfold experience_cmp. lia. Qed.

Lemma sort_step_perm s l : Permutation (sort_step s l) l.
Proof.
  unfold sort_step.
  destruct (String.eqb s "fees"); [apply sort_perm|].
  destruct (String.eqb s "experience"); [apply sort_perm | reflexivity].
Qed.

Lemma sort_step_Forall (P : Doctor -> Prop) s l :
  Forall P l -> Forall P (sort_step s l).
Proof.
  apply Permutation_Forall. symmetry. apply sort_step_perm.
Qed.

Lemma sort_step_none s l :
  s <> "fees" -> s <> "experience" -> sort_step s l = l.
Proof.
  intros H1 H2. unfold sort_step.
  apply String.eqb_neq in H1, H2. now rewrite H1, H2.
Qed.

Lemma sort_step_filter (p : Doctor -> bool) s l :
  List.filter p (sort_step s l) = sort_step s (List.filter p l).
Proof.
  unfold sort_step.
  destruct (String.eqb s "fees").
  - apply filter_sort with (key := fees). apply fees_cmp_key.
  - destruct (String.eqb s "experience"); [|reflexivity].
    apply filter_sort with (key := fun d => (- experience d)%Z).
    apply experience_cmp_key.
Qed.

Lemma sort_step_idem s l : sort_step s (sort_step s l) = sort_step s l.
Proof.
  unfold sort_step.
  destruct (String.eqb s "fees").
  - apply sort_idem with (key := fees). apply fees_cmp_key.
  - destruct (String.eqb s "experience"); [|reflexivity].
    apply sort_idem with (key := fun d => (- experience d)%Z).
    apply experience_cmp_key.
Qed.

(** *** The two variants as compositions of the steps *)

Lemma App_filtered_steps D sp :
  App.filtered D sp =
  bind
    (if negb (Nat.eqb (List.length (App.specs sp)) 0) then
       filter_throwing
         (fun d =>
            App.speciality_some d (fun s => arr_includes (App.specs sp) s))
         (mode_step mode_test_lower (App.moc sp)
                    (name_step (App.nameQuery sp) D))
     else
       Normal (mode_step mode_test_lower (App.moc sp)
                         (name_step (App.nameQuery sp) D)))
    (fun r => Normal (sort_step (App.sort sp) r)).
Proof. reflexivity. Qed.

Lemma Part000_filtered_steps st :
  Part000.filtered st =
  sort_step (Part000.sort (Part000.searchParams st))
    (let l :=
       mode_step mode_test_strict (Part000.moc (Part000.searchParams st))
                 (name_step (Part000.query st) (Part000.data st)) in
     if negb (Nat.eqb
                (List.length (Part000.specs (Part000.searchParams st))) 0)
     then List.filter
            (Part000.speciality_every
               (Part000.specs (Part000.searchParams st))) l
     else l).
Proof.
  unfold Part000.filtered, sort_step. cbv zeta.
  fold fees_cmp experience_cmp.
  destruct (String.eqb (Part000.sort (Part000.searchParams st)) "fees")
    eqn:E; [|reflexivity].
  apply String.eqb_eq in E. rewrite E. reflexivity.
Qed.

End StepFacts.

(* ================================================================== *)
(** * The claims of the specification *)
(* ================================================================== *)

(** What the part of App.tsx before the sort returns, when it returns. *)
Lemma App_filtered_inv D sp r :
  App.filtered D sp = Normal r ->
  exists r0,
    r = sort_step (App.sort sp) r0 /\
    Subseq r0 (mode_step mode_test_lower (App.moc sp)
                         (name_step (App.nameQuery sp) D)) /\
    (App.specs sp <> [] -> Forall (has_any (App.specs sp)) r0).
Proof.
  rewrite App_filtered_steps.
  destruct (negb (Nat.eqb (List.length (App.specs sp)) 0)) eqn:E.
  - destruct (filter_throwing _ _) as [r0|] eqn:F; cbn; [|discriminate].
    intros [= <-]. exists r0. split; [reflexivity|].
    apply filter_throwing_result in F as [Hs Hf]. split; [assumption|].
    intros _. eapply Forall_impl; [|exact Hf].
    intros d. apply speciality_some_true.
  - cbn. intros [= <-]. eexists. split; [reflexivity|].
    split; [apply Subseq_refl|].
    intros N. apply nonempty_iff in N. congruence.
Qed.

(** On records whose speciality is an array, App.tsx returns, and what
    it returns is the composition of the steps. *)
Lemma App_filtered_well_formed D sp :
  Forall well_formed D ->
  App.filtered D sp =
  Normal
    (sort_step (App.sort sp)
       (let l := mode_step mode_test_lower (App.moc sp)
                           (name_step (App.nameQuery sp) D) in
        if negb (Nat.eqb (List.length (App.specs sp)) 0)
        then List.filter (any_test (App.specs sp)) l else l)).
Proof.
  intros W. rewrite App_filtered_steps. cbv zeta.
  destruct (negb (Nat.eqb (List.length (App.specs sp)) 0)); [|reflexivity].
  rewrite (filter_throwing_normal _ (any_test (App.specs sp)));
    [reflexivity|].
  eapply Forall_impl; [intros d; apply speciality_some_well_formed|].
  eapply Forall_Subseq; [|exact W].
  eapply Subseq_trans; [apply mode_step_Subseq | apply name_step_Subseq].
Qed.

(** Every record part_000 keeps meets the active criteria. *)
Lemma Part000_filtered_Forall st :
  Forall (satisfies has_all (Part000.query st)
                    (Part000.moc (Part000.searchParams st))
                    (Part000.specs (Part000.searchParams st)))
         (Part000.filtered st).
Proof.
  rewrite Part000_filtered_steps. apply sort_step_Forall. cbv zeta.
  set (l := mode_step _ _ _).
  assert (Forall (fun d =>
            (Part000.query st <> EmptyString ->
             contains_nocase (name d) (Part000.query st)) /\
            (Part000.moc (Part000.searchParams st) <> EmptyString ->
             eq_nocase (mode d) (Part000.moc (Part000.searchParams st))))
            l) as Hl.
  { apply Forall_forall. intros d Hd. split.
    - intros _.
      pose proof (name_step_Forall (Part000.query st) (Part000.data st))
        as F.
      rewrite Forall_forall in F. apply F.
      eapply Subseq_In; [apply mode_step_Subseq | exact Hd].
    - intros N.
      pose proof (mode_step_Forall mode_test_strict
                    (Part000.moc (Part000.searchParams st))
                    (name_step (Part000.query st) (Part000.data st))) as F.
      rewrite Forall_forall in F. specialize (F d Hd N).
      apply mode_test_strict_iff in F. rewrite F. apply eq_nocase_refl. }
  destruct (negb (Nat.eqb _ 0)) eqn:E.
  + apply Forall_forall. intros d Hd. apply filter_In in Hd as [Hd Ht].
    rewrite Forall_forall in Hl. destruct (Hl d Hd) as [H1 H2].
    repeat split; auto.
    intros _. now apply speciality_every_iff.
  + eapply Forall_impl; [|exact Hl]. cbn. intros d [H1 H2].
    repeat split; auto.
    intros N. apply nonempty_iff in N. congruence.
Qed.

(** C1: every record of the filtered list meets all the active criteria
    at once.  In App.tsx (whenever the evaluation returns, which it does
    on records whose speciality is an array): the name contains the
    query case-insensitively, the mode equals the selected mode
    case-insensitively, and the record has one of the selected
    specialties.  In part_000: the same for the name, the mode equals
    the selected mode, and the record has all the selected
    specialties. *)
Theorem filtered_satisfies_active_filters :
  forall (D : list Doctor) (sp : URLSearchParams.t) (st : Part000.State),
    (forall r, App.filtered D sp = Normal r ->
               Forall (satisfies has_any (App.nameQuery sp) (App.moc sp)
                                 (App.specs sp)) r) /\
    (Forall well_formed D -> exists r, App.filtered D sp = Normal r) /\
    Forall (satisfies has_all (Part000.query st)
                      (Part000.moc (Part000.searchParams st))
                      (Part000.specs (Part000.searchParams st)))
           (Part000.filtered st).
Proof.
  intros D sp st. split; [|split].
  - intros r H. apply App_filtered_inv in H as (r0 & -> & Hs & Hany).
    apply sort_step_Forall.
    apply Forall_forall. intros d Hd. repeat split.
    + intros _.
      pose proof (name_step_Forall (App.nameQuery sp) D) as F.
      rewrite Forall_forall in F. apply F.
      eapply Subseq_In; [apply mode_step_Subseq|].
      eapply Subseq_In; eassumption.
    + intros N.
      pose proof (mode_step_Forall mode_test_lower (App.moc sp)
                    (name_step (App.nameQuery sp) D)) as F.
      rewrite Forall_forall in F.
      apply mode_test_lower_iff, F; [|assumption].
      eapply Subseq_In; eassumption.
    + intros N. specialize (Hany N). rewrite Forall_forall in Hany. auto.
  - intros W. eexists. now apply App_filtered_well_formed.
  - apply Part000_filtered_Forall.
Qed.

(** An instance of C1 on a concrete payload and query. *)
Lemma filtered_satisfies_active_filters_witness :
  Forall (satisfies has_any "a" "in clinic" ["Dentist"; "ENT"])
         [doc "Amanda" "In Clinic" (SpecArray ["ENT"]) 4 300].
Proof.
  apply (proj1 (filtered_satisfies_active_filters
                  [ doc "Bob" "In Clinic" (SpecArray ["ENT"]) 2 500;
                    doc "Amanda" "In Clinic" (SpecArray ["ENT"]) 4 300;
                    doc "Alice" "Video Consult" (SpecArray ["ENT"]) 4 300 ]
                  [ ("name", "a"); ("moc", "in clinic");
                    ("specialty", "Dentist,ENT") ]
                  (Part000.mkState [] "" [] []))).
  reflexivity.
Defined.

Section SortKeyFacts.

Lemma without_sort_get sp k :
  k <> "sort" -> get_or_empty (without_sort sp) k = get_or_empty sp k.
Proof.
  intros N. unfold get_or_empty, without_sort.
  rewrite get_delete_other; [reflexivity | congruence].
Qed.

Lemma without_sort_specs sp : get_specs (without_sort sp) = get_specs sp.
Proof.
  unfold get_specs, without_sort.
  rewrite get_delete_other; [reflexivity | discriminate].
Qed.

Lemma without_sort_sort sp : get_or_empty (without_sort sp) "sort" = "".
Proof.
  unfold get_or_empty, without_sort. now rewrite get_delete_same.
Qed.

(** The filtered list is the sort step applied to the filtered list of
    the query without its sort key. *)
Lemma App_filtered_without_sort D sp :
  App.filtered D sp =
  bind (App.filtered D (without_sort sp))
       (fun r0 => Normal (sort_step (App.sort sp) r0)).
Proof.
  rewrite !App_filtered_steps.
  unfold App.specs, App.moc, App.nameQuery.
  rewrite without_sort_specs, !without_sort_get by discriminate.
  unfold App.sort. rewrite without_sort_sort.
  destruct (negb (Nat.eqb (List.length (get_specs sp)) 0)).
  - destruct (filter_throwing _ _); reflexivity.
  - reflexivity.
Qed.

Lemma Part000_filtered_without_sort st :
  Part000.filtered st =
  sort_step (Part000.sort (Part000.searchParams st))
            (Part000.filtered (state_without_sort st)).
Proof.
  rewrite !Part000_filtered_steps. cbn [state_without_sort
    Part000.searchParams Part000.data Part000.query].
  unfold Part000.specs, Part000.moc.
  rewrite without_sort_specs, !without_sort_get by discriminate.
  unfold Part000.sort. rewrite without_sort_sort.
  reflexivity.
Qed.

Lemma with_key_opp {A} (key : A -> Z) k l :
  with_key (fun x => (- key x)%Z) (- k) l = with_key key k l.
Proof.
  unfold with_key. apply filter_ext. intros x.
  destruct (key x =? k)%Z eqn:E.
  - apply Z.eqb_eq in E. apply Z.eqb_eq. lia.
  - apply Z.eqb_neq in E. apply Z.eqb_neq. lia.
Qed.

Lemma sort_step_stable_fees l k :
  with_key fees k (sort_step "fees" l) = with_key fees k l.
Proof.
  cbn. apply sort_stable. apply fees_cmp_key.
Qed.

Lemma sort_step_stable_experience l k :
  with_key experience k (sort_step "experience" l) =
  with_key experience k l.
Proof.
  change (sort_step "experience" l) with (Js.sort experience_cmp l).
  rewrite <- (with_key_opp experience k (Js.sort experience_cmp l)).
  rewrite <- (with_key_opp experience k l).
  apply sort_stable. apply experience_cmp_key.
Qed.

Lemma sort_step_fees_sorted l :
  non_decreasing (List.map fees (sort_step "fees" l)).
Proof.
  cbn. apply StronglySorted_map with (R := key_le fees).
  - auto.
  - apply sort_sorted, fees_cmp_key.
Qed.

Lemma sort_step_experience_sorted l :
  non_increasing (List.map experience (sort_step "experience" l)).
Proof.
  cbn.
  apply StronglySorted_map
    with (R := key_le (fun d => (- experience d)%Z)).
  - unfold key_le. intros; lia.
  - apply sort_sorted, experience_cmp_key.
Qed.

End SortKeyFacts.

(** C2: without a sort key the filtered list is a subsequence of the
    doctor list; with a sort key it is the stable ordering of that
    subsequence: for every key value, the records of that value are the
    same, in the same order, as in the subsequence.  Stated for both
    variants, against the filtered list of the query without its sort
    key; App.tsx returns a list whenever every speciality is an
    array. *)
Theorem filtered_subsequence_and_stable :
  forall (D : list Doctor) (sp : URLSearchParams.t) (st : Part000.State),
    (forall r, App.filtered D sp = Normal r ->
       exists r0,
         App.filtered D (without_sort sp) = Normal r0 /\
         Subseq r0 D /\
         (App.sort sp <> "fees" -> App.sort sp <> "experience" -> r = r0) /\
         (App.sort sp = "fees" ->
          forall k, with_key fees k r = with_key fees k r0) /\
         (App.sort sp = "experience" ->
          forall k, with_key experience k r = with_key experience k r0)) /\
    (Subseq (Part000.filtered (state_without_sort st)) (Part000.data st) /\
     (Part000.sort (Part000.searchParams st) <> "fees" ->
      Part000.sort (Part000.searchParams st) <> "experience" ->
      Part000.filtered st = Part000.filtered (state_without_sort st)) /\
     (Part000.sort (Part000.searchParams st) = "fees" ->
      forall k, with_key fees k (Part000.filtered st) =
                with_key fees k (Part000.filtered (state_without_sort st))) /\
     (Part000.sort (Part000.searchParams st) = "experience" ->
      forall k,
        with_key experience k (Part000.filtered st) =
        with_key experience k (Part000.filtered (state_without_sort st)))) /\
    (Forall well_formed D -> exists r, App.filtered D sp = Normal r).
Proof.
  intros D sp st. split; [|split].
  3: { intros W. eexists. now apply App_filtered_well_formed. }
  - intros r H. rewrite App_filtered_without_sort in H.
    destruct (App.filtered D (without_sort sp)) as [r0|] eqn:E0;
      cbn in H; [|discriminate].
    injection H as <-. exists r0. split; [reflexivity|].
    split; [|split; [|split]].
    + apply App_filtered_inv in E0 as (r1 & -> & Hs & _).
      unfold App.sort. rewrite without_sort_sort. cbn.
      eapply Subseq_trans; [exact Hs|].
      eapply Subseq_trans; [apply mode_step_Subseq | apply name_step_Subseq].
    + intros; now apply sort_step_none.
    + intros -> k. apply sort_step_stable_fees.
    + intros -> k. apply sort_step_stable_experience.
  - rewrite (Part000_filtered_without_sort st).
    split; [|split; [|split]].
    + rewrite Part000_filtered_steps.
      cbn [state_without_sort Part000.searchParams Part000.data
           Part000.query].
      unfold Part000.sort. rewrite without_sort_sort. cbn [sort_step].
      cbn. set (l := mode_step _ _ _).
      assert (Subseq l (Part000.data st)) as Hl.
      { eapply Subseq_trans;
          [apply mode_step_Subseq | apply name_step_Subseq]. }
      destruct (negb _); [|assumption].
      eapply Subseq_trans; [apply Subseq_filter | assumption].
    + intros; now apply sort_step_none.
    + intros -> k. apply sort_step_stable_fees.
    + intros -> k. apply sort_step_stable_experience.
Qed.

Lemma filtered_subsequence_and_stable_witness :
  exists r0,
    App.filtered
      [ doc "A" "In Clinic" (SpecArray ["ENT"]) 2 500;
        doc "B" "In Clinic" (SpecArray ["ENT"]) 9 100;
        doc "C" "In Clinic" (SpecArray ["ENT"]) 5 500 ]
      (without_sort [("sort", "fees")]) = Normal r0 /\
    with_key fees 500
      [ doc "B" "In Clinic" (SpecArray ["ENT"]) 9 100;
        doc "A" "In Clinic" (SpecArray ["ENT"]) 2 500;
        doc "C" "In Clinic" (SpecArray ["ENT"]) 5 500 ] =
    with_key fees 500 r0.
Proof.
  destruct (proj1 (filtered_subsequence_and_stable
                     [ doc "A" "In Clinic" (SpecArray ["ENT"]) 2 500;
                       doc "B" "In Clinic" (SpecArray ["ENT"]) 9 100;
                       doc "C" "In Clinic" (SpecArray ["ENT"]) 5 500 ]
                     [("sort", "fees")]
                     (Part000.mkState [] "" [] []))
                  [ doc "B" "In Clinic" (SpecArray ["ENT"]) 9 100;
                    doc "A" "In Clinic" (SpecArray ["ENT"]) 2 500;
                    doc "C" "In Clinic" (SpecArray ["ENT"]) 5 500 ]
                  eq_refl)
    as (r0 & E & _ & _ & Hfees & _).
  exists r0. split; [exact E|].
  apply Hfees. reflexivity.
Defined.

(** C3: with the sort key "fees" the fees of the filtered list never
    decrease along the list, and with the sort key "experience" the
    years of experience never increase; in both variants, App.tsx
    returning a list whenever every speciality is an array. *)
Theorem filtered_sorted_by_key :
  forall (D : list Doctor) (sp : URLSearchParams.t) (st : Part000.State),
    (App.sort sp = "fees" ->
     forall r, App.filtered D sp = Normal r ->
               non_decreasing (List.map fees r)) /\
    (App.sort sp = "experience" ->
     forall r, App.filtered D sp = Normal r ->
               non_increasing (List.map experience r)) /\
    (Part000.sort (Part000.searchParams st) = "fees" ->
     non_decreasing (List.map fees (Part000.filtered st))) /\
    (Part000.sort (Part000.searchParams st) = "experience" ->
     non_increasing (List.map experience (Part000.filtered st))) /\
    (Forall well_formed D -> exists r, App.filtered D sp = Normal r).
Proof.
  intros D sp st. split; [|split; [|split; [|split]]].
  5: { intros W. eexists. now apply App_filtered_well_formed. }
  - intros E r H. apply App_filtered_inv in H as (r0 & -> & _).
    rewrite E. apply sort_step_fees_sorted.
  - intros E r H. apply App_filtered_inv in H as (r0 & -> & _).
    rewrite E. apply sort_step_experience_sorted.
  - intros E. rewrite Part000_filtered_steps, E.
    apply sort_step_fees_sorted.
  - intros E. rewrite Part000_filtered_steps, E.
    apply sort_step_experience_sorted.
Qed.

Lemma filtered_sorted_by_key_witness :
  non_decreasing
    (List.map fees
       [ doc "B" "In Clinic" (SpecArray ["ENT"]) 9 100;
         doc "A" "In Clinic" (SpecArray ["ENT"]) 2 500 ]) /\
  non_increasing
    (List.map experience
       (Part000.filtered
          (Part000.mkState
             [ doc "A" "In Clinic" (SpecArray ["ENT"]) 2 500;
               doc "B" "In Clinic" (SpecArray ["ENT"]) 9 100 ]
             "" [] [("sort", "experience")]))).
Proof.
  split.
  - apply (proj1 (filtered_sorted_by_key
                    [ doc "A" "In Clinic" (SpecArray ["ENT"]) 2 500;
                      doc "B" "In Clinic" (SpecArray ["ENT"]) 9 100 ]
                    [("sort", "fees")]
                    (Part000.mkState [] "" [] []))
                 eq_refl).
    reflexivity.
  - apply (proj1 (proj2 (proj2 (proj2 (filtered_sorted_by_key
                    [] []
                    (Part000.mkState
                       [ doc "A" "In Clinic" (SpecArray ["ENT"]) 2 500;
                         doc "B" "In Clinic" (SpecArray ["ENT"]) 9 100 ]
                       "" [] [("sort", "experience")])))))).
    reflexivity.
Defined.

(** C4: the two variants read a specialty selection differently, and on
    some doctor list and non-empty selection they return different
    lists.  A doctor whose speciality is exactly ["ENT"] has one of
    {"Dentist", "ENT"} and is kept by App.tsx, and does not have all of
    them and is dropped by part_000. *)
Theorem specialty_any_versus_all :
  (exists (D : list Doctor) (sp : URLSearchParams.t),
      App.specs sp <> [] /\
      Part000.specs sp = App.specs sp /\
      App.filtered D sp <>
      Normal (Part000.filtered (Part000.mkState D (App.nameQuery sp) [] sp)))
  /\
  App.specs [("specialty", "Dentist,ENT")] = ["Dentist"; "ENT"] /\
  has_any ["Dentist"; "ENT"] (doc "A" "In Clinic" (SpecArray ["ENT"]) 3 400) /\
  ~ has_all ["Dentist"; "ENT"] (doc "A" "In Clinic" (SpecArray ["ENT"]) 3 400)
  /\
  App.filtered [doc "A" "In Clinic" (SpecArray ["ENT"]) 3 400]
               [("specialty", "Dentist,ENT")] =
  Normal [doc "A" "In Clinic" (SpecArray ["ENT"]) 3 400] /\
  Part000.filtered
    (Part000.mkState [doc "A" "In Clinic" (SpecArray ["ENT"]) 3 400] "" []
                     [("specialty", "Dentist,ENT")]) = [].
Proof.
  split; [|split; [|split; [|split; [|split]]]].
  - exists [doc "A" "In Clinic" (SpecArray ["ENT"]) 3 400],
           [("specialty", "Dentist,ENT")].
    split; [|split].
    + vm_compute. discriminate.
    + reflexivity.
    + vm_compute. discriminate.
  - reflexivity.
  - apply any_test_iff. reflexivity.
  - intros H. apply speciality_every_iff in H. discriminate.
  - reflexivity.
  - reflexivity.
Qed.

Section ModeKeyFacts.

Lemma without_moc_get sp k :
  k <> "moc" -> get_or_empty (without_moc sp) k = get_or_empty sp k.
Proof.
  intros N. unfold get_or_empty, without_moc.
  rewrite get_delete_other; [reflexivity | congruence].
Qed.

Lemma without_moc_specs sp : get_specs (without_moc sp) = get_specs sp.
Proof.
  unfold get_specs, without_moc.
  rewrite get_delete_other; [reflexivity | discriminate].
Qed.

Lemma without_moc_moc sp : get_or_empty (without_moc sp) "moc" = "".
Proof.
  unfold get_or_empty, without_moc. now rewrite get_delete_same.
Qed.

Lemma filter_throwing_filter {A} (g : A -> completion bool) (f : A -> bool)
      l r :
  filter_throwing g l = Normal r ->
  filter_throwing g (List.filter f l) = Normal (List.filter f r).
Proof.
  revert r. induction l as [| x l IH]; cbn; intros r E.
  - now injection E as <-.
  - destruct (g x) as [b|] eqn:Ex; cbn in E; [|discriminate].
    destruct (filter_throwing g l) as [r'|]; cbn in E; [|discriminate].
    injection E as <-. specialize (IH _ eq_refl).
    destruct (f x) eqn:Fx; cbn.
    + rewrite Ex, IH. cbn. destruct b; cbn; now rewrite ?Fx.
    + rewrite IH. destruct b; cbn; now rewrite ?Fx.
Qed.

Lemma mode_step_sort_step test m s l :
  mode_step test m (sort_step s l) = sort_step s (mode_step test m l).
Proof.
  unfold mode_step. destruct (truthy m); [|reflexivity].
  apply sort_step_filter.
Qed.

(** The filtered list of App.tsx is the mode step applied to the
    filtered list of the query without its mode key. *)
Lemma App_filtered_without_moc D sp r0 :
  App.filtered D (without_moc sp) = Normal r0 ->
  App.filtered D sp = Normal (mode_step mode_test_lower (App.moc sp) r0).
Proof.
  rewrite !App_filtered_steps.
  unfold App.specs, App.moc, App.nameQuery, App.sort.
  rewrite without_moc_moc.
  rewrite without_moc_specs, !without_moc_get by discriminate.
  change (mode_step mode_test_lower "" ?l) with l.
  destruct (negb (Nat.eqb (List.length (get_specs sp)) 0)).
  - destruct (filter_throwing _ (name_step _ _)) as [r1|] eqn:F;
      cbn; [|discriminate].
    intros [= <-]. unfold mode_step at 1.
    destruct (truthy (get_or_empty sp "moc")) eqn:T.
    + rewrite (filter_throwing_filter _ _ _ _ F). cbn.
      f_equal. unfold mode_step. rewrite T.
      symmetry. apply sort_step_filter.
    + rewrite F. cbn. unfold mode_step. now rewrite T.
  - cbn. intros [= <-]. f_equal. symmetry. apply mode_step_sort_step.
Qed.

Lemma Part000_filtered_without_moc st :
  Part000.filtered st =
  mode_step mode_test_strict (Part000.moc (Part000.searchParams st))
            (Part000.filtered (state_without_moc st)).
Proof.
  rewrite !Part000_filtered_steps.
  cbn [state_without_moc Part000.searchParams Part000.data Part000.query].
  unfold Part000.specs, Part000.moc, Part000.sort.
  rewrite without_moc_moc.
  rewrite without_moc_specs, !without_moc_get by discriminate.
  change (mode_step mode_test_strict "" ?l) with l.
  rewrite mode_step_sort_step. f_equal. cbv zeta.
  destruct (negb (Nat.eqb (List.length (get_specs (Part000.searchParams st))) 0));
    [|reflexivity].
  unfold mode_step. destruct (truthy _); [|reflexivity].
  apply filter_comm.
Qed.

End ModeKeyFacts.

(** C5, as the claim states it, fails on part_000: a record whose mode
    is "video consult" equals the selected "Video Consult" up to case,
    and it is dropped. *)
Lemma mode_filter_case_counterexample :
  eq_nocase "video consult" "Video Consult" /\
  Part000.moc [("moc", "Video Consult")] = "Video Consult" /\
  Part000.filtered
    (Part000.mkState [doc "A" "video consult" (SpecArray ["ENT"]) 3 400]
                     "" [] [("moc", "Video Consult")]) = [] /\
  App.filtered [doc "A" "video consult" (SpecArray ["ENT"]) 3 400]
               [("moc", "Video Consult")] =
  Normal [doc "A" "video consult" (SpecArray ["ENT"]) 3 400].
Proof.
  split; [|split; [|split]]; try reflexivity.
  apply eq_nocase_iff. reflexivity.
Qed.

(** C5, amended: against the filtered list of the query without its mode
    key, a selected mode [m] keeps exactly the records whose mode equals
    [m] case-insensitively in App.tsx, and exactly the records whose
    mode is [m] itself in part_000; with no mode selected the mode
    filter is skipped in both. *)
Theorem mode_filter_keeps_exactly :
  forall (D : list Doctor) (sp : URLSearchParams.t) (st : Part000.State),
    (Forall well_formed D ->
     exists r0, App.filtered D (without_moc sp) = Normal r0) /\
    (forall r0,
        App.filtered D (without_moc sp) = Normal r0 ->
        (App.moc sp = "" -> App.filtered D sp = Normal r0) /\
        (App.moc sp <> "" ->
         exists keep : Doctor -> bool,
           (forall d, keep d = true <-> eq_nocase (mode d) (App.moc sp)) /\
           App.filtered D sp = Normal (List.filter keep r0))) /\
    (Part000.moc (Part000.searchParams st) = "" ->
     Part000.filtered st = Part000.filtered (state_without_moc st)) /\
    (Part000.moc (Part000.searchParams st) <> "" ->
     exists keep : Doctor -> bool,
       (forall d, keep d = true <->
                  mode d = Part000.moc (Part000.searchParams st)) /\
       Part000.filtered st =
       List.filter keep (Part000.filtered (state_without_moc st))).
Proof.
  intros D sp st. split; [|split; [|split]].
  - intros W. eexists. now apply App_filtered_well_formed.
  - intros r0 H. apply App_filtered_without_moc in H. rewrite H. split.
    + intros ->. reflexivity.
    + intros N. exists (mode_test_lower (App.moc sp)). split.
      * intros d. apply mode_test_lower_iff.
      * unfold mode_step. apply truthy_iff in N. now rewrite N.
  - intros E. rewrite Part000_filtered_without_moc, E. reflexivity.
  - intros N.
    exists (mode_test_strict (Part000.moc (Part000.searchParams st))). split.
    + intros d. apply mode_test_strict_iff.
    + rewrite Part000_filtered_without_moc at 1.
      unfold mode_step. apply truthy_iff in N. now rewrite N.
Qed.

Lemma mode_filter_keeps_exactly_witness :
  exists keep : Doctor -> bool,
    (forall d, keep d = true <-> eq_nocase (mode d) "Video Consult") /\
    App.filtered
      [ doc "A" "video consult" (SpecArray ["ENT"]) 3 400;
        doc "B" "In Clinic" (SpecArray ["ENT"]) 3 400 ]
      [("moc", "Video Consult"); ("sort", "fees")] =
    Normal
      (List.filter keep
         [ doc "A" "video consult" (SpecArray ["ENT"]) 3 400;
           doc "B" "In Clinic" (SpecArray ["ENT"]) 3 400 ]).
Proof.
  apply (proj1 (proj2 (mode_filter_keeps_exactly
                         [ doc "A" "video consult" (SpecArray ["ENT"]) 3 400;
                           doc "B" "In Clinic" (SpecArray ["ENT"]) 3 400 ]
                         [("moc", "Video Consult"); ("sort", "fees")]
                         (Part000.mkState [] "" [] []))) _ eq_refl).
  discriminate.
Defined.

(** C6: the claim holds of part_000, and App.tsx breaks it.  In
    part_000, under a non-empty selection, every record of the filtered
    list has a list as speciality: the [Array.isArray] guard leaves out
    a record whose speciality is absent or not a list.  App.tsx calls
    [d.speciality.some] with no guard: on the doctor list of one record
    without a list and the selection "ENT" its evaluation throws, where
    part_000 returns the empty list.  Whenever App.tsx does return
    under a non-empty selection, no such record is in the list
    either. *)
Theorem malformed_speciality_throws_in_App :
  App.specs [("specialty", "ENT")] = ["ENT"] /\
  App.filtered [doc "A" "In Clinic" SpecMalformed 3 400]
               [("specialty", "ENT")] = Throw /\
  Part000.filtered
    (Part000.mkState [doc "A" "In Clinic" SpecMalformed 3 400] "" []
                     [("specialty", "ENT")]) = [] /\
  (forall st : Part000.State,
      Part000.specs (Part000.searchParams st) <> [] ->
      Forall well_formed (Part000.filtered st)) /\
  (forall (D : list Doctor) (sp : URLSearchParams.t) (r : list Doctor),
      App.specs sp <> [] ->
      App.filtered D sp = Normal r ->
      Forall well_formed r).
Proof.
  split; [reflexivity|]. split; [reflexivity|]. split; [reflexivity|].
  split.
  - intros st N.
    eapply Forall_impl; [|apply (Part000_filtered_Forall st)].
    intros d (_ & _ & H). destruct (H N) as (l & E & _). now exists l.
  - intros D sp r N H.
    apply App_filtered_inv in H as (r0 & -> & _ & Hany).
    apply sort_step_Forall.
    eapply Forall_impl; [|exact (Hany N)].
    intros d (l & s & E & _). now exists l.
Qed.

Lemma malformed_speciality_throws_in_App_witness :
  Forall well_formed
    (Part000.filtered
       (Part000.mkState
          [ doc "A" "In Clinic" SpecMalformed 3 400;
            doc "B" "In Clinic" (SpecArray ["ENT"]) 3 400 ]
          "" [] [("specialty", "ENT")])).
Proof.
  apply (proj1 (proj2 (proj2 (proj2 malformed_speciality_throws_in_App)))
           (Part000.mkState
              [ doc "A" "In Clinic" SpecMalformed 3 400;
                doc "B" "In Clinic" (SpecArray ["ENT"]) 3 400 ]
              "" [] [("specialty", "ENT")])).
  discriminate.
Defined.

Section SuggestionFacts.

(** Taking the first [n] of the elements a test accepts is accepting
    all of them in a prefix of the list, which stops once [n] are found
    or is the whole list. *)
Lemma firstn_filter_prefix {A} (f : A -> bool) (n : nat) (l : list A) :
  exists pre post,
    l = pre ++ post /\
    firstn n (List.filter f l) = List.filter f pre /\
    (List.length (firstn n (List.filter f l)) = n \/ post = []).
Proof.
  revert n. induction l as [| x l IH]; intros n.
  - exists [], []. destruct n; cbn; auto.
  - destruct n as [| n].
    + exists [], (x :: l). cbn. auto.
    + cbn [List.filter]. destruct (f x) eqn:Fx.
      * destruct (IH n) as (pre & post & -> & E & H).
        exists (x :: pre), post. cbn. rewrite Fx, E.
        repeat split; [].
        destruct H as [H | H]; [left | now right].
        cbn. f_equal. now rewrite <- E.
      * destruct (IH (S n)) as (pre & post & -> & E & H).
        exists (x :: pre), post. cbn [List.filter]. rewrite Fx.
        repeat split; assumption.
Qed.

Lemma suggestions_list_spec q D :
  let r := slice0 3 (List.filter (name_test q) D) in
  List.length r <= 3 /\
  Forall (fun d => contains_nocase (name d) q) r /\
  Subseq r D /\
  exists pre post,
    D = pre ++ post /\
    r = List.filter (name_test q) pre /\
    (List.length r = 3 \/ post = []).
Proof.
  cbv zeta. unfold slice0. repeat split.
  - apply firstn_le_length.
  - eapply Forall_Subseq; [apply Subseq_firstn|].
    eapply Forall_impl; [|apply filter_Forall_test].
    intros d. apply name_test_iff.
  - eapply Subseq_trans; [apply Subseq_firstn | apply Subseq_filter].
  - apply firstn_filter_prefix.
Qed.

End SuggestionFacts.

(** C7: the suggestions are at most 3 records; the name of each contains
    the query case-insensitively; they are the first such records of the
    doctor list, in its order (all the matches of a prefix of the list,
    which ends once 3 are found or with the list); an empty query gives
    no suggestion.  In App.tsx the query is the URL's name; in part_000
    it is the text [handleSearch] receives, which also becomes the
    query of the state. *)
Theorem suggestions_first_three_matches :
  forall (D : list Doctor) (sp : URLSearchParams.t)
         (st : Part000.State) (value : string),
    (List.length (App.suggestions D sp) <= 3 /\
     Forall (fun d => contains_nocase (name d) (App.nameQuery sp))
            (App.suggestions D sp) /\
     (App.nameQuery sp = "" -> App.suggestions D sp = []) /\
     (App.nameQuery sp <> "" ->
      exists pre post keep,
        (forall d, keep d = true <->
                   contains_nocase (name d) (App.nameQuery sp)) /\
        D = pre ++ post /\
        App.suggestions D sp = List.filter keep pre /\
        (List.length (App.suggestions D sp) = 3 \/ post = []))) /\
    (Part000.query (Part000.handleSearch st value) = value /\
     List.length (Part000.suggestions (Part000.handleSearch st value)) <= 3 /\
     Forall (fun d => contains_nocase (name d) value)
            (Part000.suggestions (Part000.handleSearch st value)) /\
     (value = "" ->
      Part000.suggestions (Part000.handleSearch st value) = []) /\
     (value <> "" ->
      exists pre post keep,
        (forall d, keep d = true <-> contains_nocase (name d) value) /\
        Part000.data st = pre ++ post /\
        Part000.suggestions (Part000.handleSearch st value) =
        List.filter keep pre /\
        (List.length (Part000.suggestions (Part000.handleSearch st value)) = 3
         \/ post = []))).
Proof.
  intros D sp st value. split.
  - unfold App.suggestions. cbv zeta.
    destruct (truthy (App.nameQuery sp)) eqn:T; cbn [negb].
    + destruct (suggestions_list_spec (App.nameQuery sp) D)
        as (H1 & H2 & _ & pre & post & H3 & H4 & H5).
      fold (name_test (App.nameQuery sp)).
      repeat split; try assumption.
      * intros E. apply truthy_iff in T. contradiction.
      * intros _. exists pre, post, (name_test (App.nameQuery sp)).
        repeat split; try assumption; apply name_test_iff.
    + apply truthy_false_iff in T. repeat split.
      * cbn. lia.
      * constructor.
      * intros N. contradiction.
  - unfold Part000.handleSearch. cbv zeta.
    destruct (truthy value) eqn:T; cbn [negb Part000.query
      Part000.suggestions Part000.data].
    + destruct (suggestions_list_spec value (Part000.data st))
        as (H1 & H2 & _ & pre & post & H3 & H4 & H5).
      fold (name_test value).
      repeat split; try assumption.
      * intros E. apply truthy_iff in T. contradiction.
      * intros _. exists pre, post, (name_test value).
        repeat split; try assumption; apply name_test_iff.
    + apply truthy_false_iff in T. repeat split.
      * cbn. lia.
      * constructor.
      * intros N. contradiction.
Qed.

Lemma suggestions_first_three_matches_witness :
  exists pre post keep,
    (forall d, keep d = true <-> contains_nocase (name d) "a") /\
    [ doc "Alice" "In Clinic" (SpecArray ["ENT"]) 3 400;
      doc "Bob" "In Clinic" (SpecArray ["ENT"]) 3 400;
      doc "Amanda" "In Clinic" (SpecArray ["ENT"]) 3 400;
      doc "Carl" "In Clinic" (SpecArray ["ENT"]) 3 400;
      doc "Dana" "In Clinic" (SpecArray ["ENT"]) 3 400 ] = pre ++ post /\
    App.suggestions
      [ doc "Alice" "In Clinic" (SpecArray ["ENT"]) 3 400;
        doc "Bob" "In Clinic" (SpecArray ["ENT"]) 3 400;
        doc "Amanda" "In Clinic" (SpecArray ["ENT"]) 3 400;
        doc "Carl" "In Clinic" (SpecArray ["ENT"]) 3 400;
        doc "Dana" "In Clinic" (SpecArray ["ENT"]) 3 400 ]
      [("name", "a")] = List.filter keep pre /\
    (List.length
       (App.suggestions
          [ doc "Alice" "In Clinic" (SpecArray ["ENT"]) 3 400;
            doc "Bob" "In Clinic" (SpecArray ["ENT"]) 3 400;
            doc "Amanda" "In Clinic" (SpecArray ["ENT"]) 3 400;
            doc "Carl" "In Clinic" (SpecArray ["ENT"]) 3 400;
            doc "Dana" "In Clinic" (SpecArray ["ENT"]) 3 400 ]
          [("name", "a")]) = 3 \/ post = []).
Proof.
  apply (proj2 (proj2 (proj2 (proj1
           (suggestions_first_three_matches
              [ doc "Alice" "In Clinic" (SpecArray ["ENT"]) 3 400;
                doc "Bob" "In Clinic" (SpecArray ["ENT"]) 3 400;
                doc "Amanda" "In Clinic" (SpecArray ["ENT"]) 3 400;
                doc "Carl" "In Clinic" (SpecArray ["ENT"]) 3 400;
                doc "Dana" "In Clinic" (SpecArray ["ENT"]) 3 400 ]
              [("name", "a")]
              (Part000.mkState [] "" [] []) ""))))).
  discriminate.
Defined.

Section UpdateFacts.

Lemma join_not_empty sep x l :
  x <> EmptyString -> join sep (x :: l) <> EmptyString.
Proof.
  destruct x; [congruence|]. intros _. destruct l; cbn; discriminate.
Qed.

Lemma updateParam_same sp key value :
  Part000.updateParam sp key value = App.updateParam sp key value.
Proof. reflexivity. Qed.

Lemma updateParam_delete sp key value :
  falsy value || is_empty_array value = true ->
  App.updateParam sp key value = URLSearchParams.delete sp key.
Proof. unfold App.updateParam. now intros ->. Qed.

Lemma updateParam_set sp key value :
  falsy value || is_empty_array value = false ->
  App.updateParam sp key value =
  URLSearchParams.set sp key (param_string value).
Proof. unfold App.updateParam. now intros ->. Qed.

Lemma updateParam_get_other sp k1 k2 value :
  k1 <> k2 ->
  URLSearchParams.get (App.updateParam sp k1 value) k2 =
  URLSearchParams.get sp k2.
Proof.
  intros N. unfold App.updateParam.
  destruct (falsy value || is_empty_array value).
  - now apply get_delete_other.
  - now apply get_set_other.
Qed.

Lemma updateParam_pairs_other sp k1 k2 value :
  k1 <> k2 ->
  List.filter (fun kv => String.eqb (fst kv) k2)
              (App.updateParam sp k1 value) =
  List.filter (fun kv => String.eqb (fst kv) k2) sp.
Proof.
  intros N. unfold App.updateParam.
  destruct (falsy value || is_empty_array value).
  - now apply delete_other_pairs.
  - now apply set_other_pairs.
Qed.

End UpdateFacts.

(** C8: after [update(key, "")], and after an update with an empty
    collection, the key is removed and [get(key)] is empty; after
    [update(key, v)] with a non-empty string [v], [get(key)] is [v];
    after an update with a non-empty collection, the key holds its
    elements joined with a comma.  Both variants, whatever the state
    before. *)
Theorem update_then_get :
  forall (sp : URLSearchParams.t) (key v : string) (l : list string),
    (URLSearchParams.get (App.updateParam sp key (VString "")) key = None /\
     store_get (App.updateParam sp key (VString "")) key = "") /\
    (URLSearchParams.get (App.updateParam sp key (VArray [])) key = None /\
     store_get (App.updateParam sp key (VArray [])) key = "") /\
    (v <> "" -> store_get (App.updateParam sp key (VString v)) key = v) /\
    (l <> [] ->
     URLSearchParams.get (App.updateParam sp key (VArray l)) key =
     Some (join "," l)) /\
    (forall value,
        Part000.updateParam sp key value = App.updateParam sp key value).
Proof.
  intros sp key v l. repeat split.
  - rewrite updateParam_delete by reflexivity. apply get_delete_same.
  - unfold store_get, get_or_empty.
    rewrite updateParam_delete by reflexivity.
    now rewrite get_delete_same.
  - rewrite updateParam_delete by reflexivity. apply get_delete_same.
  - unfold store_get, get_or_empty.
    rewrite updateParam_delete by reflexivity.
    now rewrite get_delete_same.
  - intros N. unfold store_get, get_or_empty.
    rewrite updateParam_set.
    + cbn. now rewrite get_set_same.
    + cbn. apply truthy_iff in N. now rewrite N.
  - intros N. rewrite updateParam_set.
    + cbn. now rewrite get_set_same.
    + destruct l; [contradiction | reflexivity].
Qed.

Lemma update_then_get_witness :
  store_get
    (App.updateParam [("name", "al"); ("sort", "fees")] "name"
                     (VString "alice")) "name" = "alice" /\
  URLSearchParams.get
    (App.updateParam [("name", "al"); ("sort", "fees")] "specialty"
                     (VArray ["Dentist"; "ENT"])) "specialty" =
  Some "Dentist,ENT".
Proof.
  split.
  - apply (proj1 (proj2 (proj2 (update_then_get
                   [("name", "al"); ("sort", "fees")] "name" "alice" [])))).
    discriminate.
  - apply (proj1 (proj2 (proj2 (proj2 (update_then_get
                   [("name", "al"); ("sort", "fees")] "specialty" ""
                   ["Dentist"; "ENT"]))))).
    discriminate.
Defined.

(** C9: an update of one key leaves every other key as it was: its
    [get], and all the pairs of that key in the URL; in both variants,
    for every value. *)
Theorem update_leaves_other_keys :
  forall (sp : URLSearchParams.t) (k1 k2 : string) (value : ParamValue),
    k1 <> k2 ->
    URLSearchParams.get (App.updateParam sp k1 value) k2 =
    URLSearchParams.get sp k2 /\
    store_get (App.updateParam sp k1 value) k2 = store_get sp k2 /\
    List.filter (fun kv => String.eqb (fst kv) k2)
                (App.updateParam sp k1 value) =
    List.filter (fun kv => String.eqb (fst kv) k2) sp /\
    URLSearchParams.get (Part000.updateParam sp k1 value) k2 =
    URLSearchParams.get sp k2 /\
    store_get (Part000.updateParam sp k1 value) k2 = store_get sp k2.
Proof.
  intros sp k1 k2 value N.
  change (Part000.updateParam sp k1 value) with (App.updateParam sp k1 value).
  unfold store_get, get_or_empty.
  rewrite (updateParam_get_other sp k1 k2 value N).
  repeat split. now apply updateParam_pairs_other.
Qed.

Lemma update_leaves_other_keys_witness :
  "sort" <> "moc" /\
  URLSearchParams.get
    (App.updateParam [("moc", "In Clinic"); ("sort", "fees")] "sort"
                     (VString "experience")) "moc" =
  URLSearchParams.get [("moc", "In Clinic"); ("sort", "fees")] "moc".
Proof.
  split; [discriminate|].
  apply (update_leaves_other_keys
           [("moc", "In Clinic"); ("sort", "fees")] "sort" "moc"
           (VString "experience")).
  discriminate.
Defined.

Section EmptySelectionFacts.

Lemma empty_not_in_vocabulary : ~ In EmptyString SPECIALTIES.
Proof. cbn. intuition discriminate. Qed.

Lemma in_vocabulary_well_formed d : in_vocabulary d -> well_formed d.
Proof. intros (l & E & _). now exists l. Qed.

Lemma in_vocabulary_no_empty_term d : in_vocabulary d -> no_empty_term d.
Proof.
  intros (l & E & F) l' E' Hin. rewrite E in E'. injection E' as <-.
  rewrite Forall_forall in F. now apply empty_not_in_vocabulary, F.
Qed.

Lemma any_test_empty_term d :
  no_empty_term d -> any_test [EmptyString] d = false.
Proof.
  intros N. apply not_true_is_false. intros H.
  apply any_test_iff in H as (l & s & E & Hl & [<- | []]).
  now apply (N l).
Qed.

Lemma speciality_every_empty_term d :
  no_empty_term d -> Part000.speciality_every [EmptyString] d = false.
Proof.
  intros N. apply not_true_is_false. intros H.
  apply speciality_every_iff in H as (l & E & H).
  apply (N l E), H. now left.
Qed.

Lemma filter_all_false {A} (f : A -> bool) l :
  Forall (fun x => f x = false) l -> List.filter f l = [].
Proof.
  induction 1 as [| x l Hx _ IH]; cbn; [reflexivity|].
  now rewrite Hx.
Qed.

Lemma sort_step_nil s : sort_step s [] = [].
Proof.
  unfold sort_step. destruct (String.eqb s "fees"); [reflexivity|].
  destruct (String.eqb s "experience"); reflexivity.
Qed.

End EmptySelectionFacts.

(** C10: when the URL holds [specialty=] with an empty value, the parsed
    selection is the one-element list [""], not the empty list; the
    specialty filter is active, and every doctor is filtered out: in
    App.tsx for doctors whose specialities are lists of vocabulary
    terms, in part_000 for doctors none of whose speciality lists holds
    the empty string. *)
Theorem empty_specialty_parameter_filters_all :
  forall (D : list Doctor) (sp : URLSearchParams.t) (st : Part000.State),
    (URLSearchParams.get sp "specialty" = Some "" ->
     App.specs sp = [""] /\
     (Forall in_vocabulary D -> App.filtered D sp = Normal [])) /\
    (URLSearchParams.get (Part000.searchParams st) "specialty" = Some "" ->
     Part000.specs (Part000.searchParams st) = [""] /\
     (Forall no_empty_term (Part000.data st) -> Part000.filtered st = [])).
Proof.
  intros D sp st. split.
  - intros E.
    assert (App.specs sp = [""]) as S.
    { unfold App.specs, get_specs. now rewrite E. }
    split; [exact S|]. intros V.
    rewrite App_filtered_well_formed.
    + rewrite S. cbn [List.length Nat.eqb negb]. cbv zeta.
      rewrite filter_all_false; [now rewrite sort_step_nil|].
      eapply Forall_impl;
        [intros d Hd; apply any_test_empty_term; exact Hd|].
      eapply Forall_Subseq;
        [eapply Subseq_trans;
         [apply mode_step_Subseq | apply name_step_Subseq]|].
      eapply Forall_impl; [|exact V].
      apply in_vocabulary_no_empty_term.
    + eapply Forall_impl; [|exact V]. apply in_vocabulary_well_formed.
  - intros E.
    assert (Part000.specs (Part000.searchParams st) = [""]) as S.
    { unfold Part000.specs, get_specs. now rewrite E. }
    split; [exact S|]. intros V.
    rewrite Part000_filtered_steps, S.
    cbn [List.length Nat.eqb negb]. cbv zeta.
    rewrite filter_all_false; [now rewrite sort_step_nil|].
    eapply Forall_impl;
      [intros d Hd; apply speciality_every_empty_term; exact Hd|].
    eapply Forall_Subseq;
      [eapply Subseq_trans;
       [apply mode_step_Subseq | apply name_step_Subseq]|].
    exact V.
Qed.

Lemma empty_specialty_parameter_filters_all_witness :
  App.specs [("specialty", "")] = [""] /\
  App.filtered
    [ doc "A" "In Clinic" (SpecArray ["ENT"]) 3 400;
      doc "B" "Video Consult" (SpecArray ["Dentist"; "Homeopath"]) 7 250 ]
    [("specialty", "")] = Normal [].
Proof.
  destruct (proj1 (empty_specialty_parameter_filters_all
                     [ doc "A" "In Clinic" (SpecArray ["ENT"]) 3 400;
                       doc "B" "Video Consult"
                           (SpecArray ["Dentist"; "Homeopath"]) 7 250 ]
                     [("specialty", "")]
                     (Part000.mkState [] "" [] []))
                  eq_refl) as [S F].
  split; [exact S|]. apply F.
  repeat constructor.
  - exists ["ENT"]. split; [reflexivity|].
    repeat constructor; cbn; tauto.
  - exists ["Dentist"; "Homeopath"]. split; [reflexivity|].
    repeat constructor; cbn; tauto.
Defined.

(* ================================================================== *)
(** * Further properties of the component *)
(* ================================================================== *)

Section SelectionFacts.

Lemma split_comma_free s : forallb no_comma (split "," s) = true.
Proof.
  induction s as [| c s IH]; cbn [split]; [reflexivity|].
  destruct (Ascii.eqb c ",") eqn:E; [exact IH|].
  pose proof (split_not_nil "," s) as N.
  destruct (split "," s) as [| h t]; [contradiction|].
  cbn in *. now rewrite E.
Qed.

Lemma arr_includes_iff l s : arr_includes l s = true <-> In s l.
Proof.
  unfold arr_includes. rewrite existsb_exists. split.
  - intros (x & Hx & E). apply String.eqb_eq in E. now subst.
  - intros H. exists s. split; [assumption | apply String.eqb_refl].
Qed.

Lemma arr_includes_false_iff l s : arr_includes l s = false <-> ~ In s l.
Proof.
  rewrite <- arr_includes_iff. destruct (arr_includes l s); split; congruence.
Qed.

Lemma In_toggle specs spec x :
  In x (toggle specs spec) <->
  (x <> spec /\ In x specs) \/ (x = spec /\ ~ In spec specs).
Proof.
  unfold toggle. destruct (arr_includes specs spec) eqn:E.
  - apply arr_includes_iff in E. rewrite filter_In, negb_true_iff.
    rewrite String.eqb_neq. split.
    + intros [H N]. now left.
    + intros [[N H] | [-> N]]; [now split | contradiction].
  - apply arr_includes_false_iff in E. rewrite in_app_iff. cbn. split.
    + intros [H | [<- | []]].
      * left. split; [congruence | assumption].
      * now right.
    + intros [[N H] | [-> N]]; [now left | right; now left].
Qed.

Lemma toggle_comma_free specs spec :
  forallb no_comma specs = true -> no_comma spec = true ->
  forallb no_comma (toggle specs spec) = true.
Proof.
  rewrite !forallb_forall. intros H Hs x Hx.
  apply In_toggle in Hx as [[_ Hx] | [-> _]]; auto.
Qed.

(** What [specs] reads after [updateParam("specialty", l)]. *)
Lemma specs_after_update sp l :
  forallb no_comma l = true ->
  get_specs (App.updateParam sp "specialty" (VArray l)) = l.
Proof.
  intros H. unfold get_specs. destruct l as [| x l].
  - rewrite updateParam_delete by reflexivity.
    now rewrite get_delete_same.
  - rewrite updateParam_set by reflexivity. rewrite get_set_same.
    cbn [param_string]. now apply split_join.
Qed.

End SelectionFacts.

(** X1: a selection written to the URL is read back as it was: after
    [updateParam("specialty", l)] with terms that hold no comma, [specs]
    is [l]; in both variants.  The terms of the vocabulary hold no
    comma. *)
Theorem selection_read_back :
  forall (sp : URLSearchParams.t) (l : list string),
    forallb no_comma l = true ->
    App.specs (App.updateParam sp "specialty" (VArray l)) = l /\
    Part000.specs (Part000.updateParam sp "specialty" (VArray l)) = l /\
    forallb no_comma SPECIALTIES = true.
Proof.
  intros sp l H. repeat split.
  - now apply specs_after_update.
  - now apply specs_after_update.
Qed.

Lemma selection_read_back_witness :
  forallb no_comma ["Dentist"; "Dietitian/Nutritionist"] = true /\
  App.specs
    (App.updateParam [("specialty", "ENT"); ("sort", "fees")] "specialty"
                     (VArray ["Dentist"; "Dietitian/Nutritionist"])) =
  ["Dentist"; "Dietitian/Nutritionist"].
Proof.
  split; [reflexivity|].
  apply (selection_read_back
           [("specialty", "ENT"); ("sort", "fees")]
           ["Dentist"; "Dietitian/Nutritionist"]).
  reflexivity.
Defined.

(** X2: writing the parsed selection back leaves the URL's specialty
    value as it was: an absent key stays absent, and a present value,
    even the empty one, is split and joined into itself. *)
Theorem selection_write_back :
  forall (sp : URLSearchParams.t),
    URLSearchParams.get
      (App.updateParam sp "specialty" (VArray (App.specs sp))) "specialty" =
    URLSearchParams.get sp "specialty" /\
    (App.specs sp = [] <-> URLSearchParams.get sp "specialty" = None).
Proof.
  intros sp. unfold App.specs, get_specs.
  destruct (URLSearchParams.get sp "specialty") as [v|] eqn:E.
  - pose proof (split_not_nil "," v) as N. split.
    + rewrite updateParam_set.
      * rewrite get_set_same. cbn [param_string].
        now rewrite (join_split "," v).
      * destruct (split "," v); [contradiction | reflexivity].
    + split; [contradiction | discriminate].
  - split.
    + rewrite updateParam_delete by reflexivity. apply get_delete_same.
    + split; reflexivity.
Qed.

(** X3: a click on the checkbox of a term that holds no comma toggles
    that term in the selection: the selection read after the click is
    the toggled one, the checkbox of the term changes its state, and
    the checkbox of every other term keeps its state. *)
Theorem checkbox_click_toggles :
  forall (sp : URLSearchParams.t) (spec : string),
    no_comma spec = true ->
    App.specs (App.onSpecialtyChange sp spec) = toggle (App.specs sp) spec /\
    Part000.specs (Part000.onSpecialtyChange sp spec) =
    toggle (Part000.specs sp) spec /\
    arr_includes (App.specs (App.onSpecialtyChange sp spec)) spec =
    negb (arr_includes (App.specs sp) spec) /\
    (forall other,
        other <> spec ->
        arr_includes (App.specs (App.onSpecialtyChange sp spec)) other =
        arr_includes (App.specs sp) other).
Proof.
  intros sp spec H.
  assert (App.specs (App.onSpecialtyChange sp spec) =
          toggle (App.specs sp) spec) as E.
  { unfold App.onSpecialtyChange, App.specs. apply specs_after_update.
    apply toggle_comma_free; [|assumption].
    unfold get_specs. destruct (URLSearchParams.get sp "specialty");
      [apply split_comma_free | reflexivity]. }
  split; [exact E|]. split; [exact E|]. rewrite E. split.
  - destruct (arr_includes (App.specs sp) spec) eqn:I; cbn [negb].
    + apply arr_includes_false_iff. rewrite In_toggle.
      apply arr_includes_iff in I. intros [[N _] | [_ N]]; contradiction.
    + apply arr_includes_iff, In_toggle. right.
      split; [reflexivity | now apply arr_includes_false_iff].
  - intros other N.
    destruct (arr_includes (App.specs sp) other) eqn:I.
    + apply arr_includes_iff, In_toggle. left.
      split; [assumption | now apply arr_includes_iff].
    + apply arr_includes_false_iff. rewrite In_toggle.
      apply arr_includes_false_iff in I.
      intros [[_ H'] | [H' _]]; contradiction.
Qed.

Lemma checkbox_click_toggles_witness :
  no_comma "ENT" = true /\
  App.specs (App.onSpecialtyChange [("specialty", "Dentist,ENT")] "ENT") =
  toggle (App.specs [("specialty", "Dentist,ENT")]) "ENT".
Proof.
  split; [reflexivity|].
  apply (checkbox_click_toggles [("specialty", "Dentist,ENT")] "ENT").
  reflexivity.
Defined.

(** X4: the empty term of a [specialty=] URL is never cleared by the
    checkboxes: if the selection holds the empty string, it still holds
    it after a click on the checkbox of any non-empty term. *)
Theorem empty_term_survives_clicks :
  forall (sp : URLSearchParams.t) (spec : string),
    no_comma spec = true -> spec <> "" ->
    In "" (App.specs sp) ->
    In "" (App.specs (App.onSpecialtyChange sp spec)) /\
    In "" (Part000.specs (Part000.onSpecialtyChange sp spec)).
Proof.
  intros sp spec H N Hin.
  assert (In "" (App.specs (App.onSpecialtyChange sp spec))) as G.
  { unfold App.onSpecialtyChange, App.specs. rewrite specs_after_update.
    - apply In_toggle. left. split; [congruence | exact Hin].
    - apply toggle_comma_free; [|assumption].
      unfold get_specs. destruct (URLSearchParams.get sp "specialty");
        [apply split_comma_free | reflexivity]. }
  split; exact G.
Qed.

Lemma empty_term_survives_clicks_witness :
  In "" (App.specs (App.onSpecialtyChange [("specialty", "")] "ENT")).
Proof.
  apply (empty_term_survives_clicks [("specialty", "")] "ENT").
  - reflexivity.
  - discriminate.
  - now left.
Defined.

Section MembershipFacts.

Lemma In_name_step q l d :
  In d (name_step q l) <->
  In d l /\ (q <> "" -> contains_nocase (name d) q).
Proof.
  unfold name_step. destruct (truthy q) eqn:T.
  - rewrite filter_In, name_test_iff. apply truthy_iff in T. tauto.
  - apply truthy_false_iff in T. subst q. tauto.
Qed.

Lemma In_mode_step test m l d :
  In d (mode_step test m l) <->
  In d l /\ (m <> "" -> test m d = true).
Proof.
  unfold mode_step. destruct (truthy m) eqn:T.
  - rewrite filter_In. apply truthy_iff in T. tauto.
  - apply truthy_false_iff in T. subst m. tauto.
Qed.

Lemma In_sort_step s l d : In d (sort_step s l) <-> In d l.
Proof.
  split; apply Permutation_in;
    [apply sort_step_perm | symmetry; apply sort_step_perm].
Qed.

Lemma name_step_fixed q l :
  Forall (fun d => q <> "" -> contains_nocase (name d) q) l ->
  name_step q l = l.
Proof.
  intros F. unfold name_step. destruct (truthy q) eqn:T; [|reflexivity].
  apply truthy_iff in T. apply filter_all_true.
  eapply Forall_impl; [|exact F]. cbn. intros d H.
  now apply name_test_iff, H.
Qed.

Lemma mode_step_fixed test m l :
  Forall (fun d => m <> "" -> test m d = true) l ->
  mode_step test m l = l.
Proof.
  intros F. unfold mode_step. destruct (truthy m) eqn:T; [|reflexivity].
  apply truthy_iff in T. apply filter_all_true.
  eapply Forall_impl; [|exact F]. cbn. auto.
Qed.

(** The records part_000 keeps, by the tests they pass. *)
Lemma Part000_filtered_In st d :
  In d (Part000.filtered st) <->
  In d (Part000.data st) /\
  (Part000.query st <> "" -> contains_nocase (name d) (Part000.query st)) /\
  (Part000.moc (Part000.searchParams st) <> "" ->
   mode_test_strict (Part000.moc (Part000.searchParams st)) d = true) /\
  (Part000.specs (Part000.searchParams st) <> [] ->
   Part000.speciality_every (Part000.specs (Part000.searchParams st)) d
   = true).
Proof.
  rewrite Part000_filtered_steps, In_sort_step. cbv zeta.
  destruct (negb (Nat.eqb _ 0)) eqn:E.
  - apply nonempty_iff in E.
    rewrite filter_In, In_mode_step, In_name_step. tauto.
  - rewrite In_mode_step, In_name_step.
    assert (Part000.specs (Part000.searchParams st) = []) as ->.
    { destruct (Part000.specs (Part000.searchParams st));
        [reflexivity | discriminate]. }
    tauto.
Qed.

(** The records App.tsx keeps, when it returns, by the tests they
    pass. *)
Lemma App_filtered_In D sp r d :
  App.filtered D sp = Normal r ->
  (In d r <->
   In d D /\
   (App.nameQuery sp <> "" -> contains_nocase (name d) (App.nameQuery sp)) /\
   (App.moc sp <> "" -> mode_test_lower (App.moc sp) d = true) /\
   (App.specs sp <> [] ->
    App.speciality_some d (fun s => arr_includes (App.specs sp) s)
    = Normal true)).
Proof.
  rewrite App_filtered_steps.
  destruct (negb (Nat.eqb _ 0)) eqn:E.
  - apply nonempty_iff in E.
    destruct (filter_throwing _ _) as [r0|] eqn:F; cbn; [|discriminate].
    intros [= <-]. rewrite In_sort_step.
    assert (In d r0 <->
            In d (mode_step mode_test_lower (App.moc sp)
                            (name_step (App.nameQuery sp) D)) /\
            App.speciality_some d (fun s => arr_includes (App.specs sp) s)
            = Normal true) as ->.
    { clear E. revert r0 F.
      induction (mode_step mode_test_lower (App.moc sp)
                           (name_step (App.nameQuery sp) D))
        as [| x l IH]; cbn; intros r0 F.
      - injection F as <-. cbn. tauto.
      - destruct (App.speciality_some x _) as [b|] eqn:Ex; cbn in F;
          [|discriminate].
        destruct (filter_throwing _ l) as [r'|]; cbn in F; [|discriminate].
        injection F as <-. specialize (IH _ eq_refl).
        destruct b; cbn; rewrite ?IH; split.
        + intros [<- | [H1 H2]]; auto.
        + intros [[<- | H1] H2]; auto.
        + intros [H1 H2]; auto.
        + intros [[<- | H1] H2]; [congruence | auto]. }
    rewrite In_mode_step, In_name_step. tauto.
  - cbn. intros [= <-].
    rewrite In_sort_step, In_mode_step, In_name_step.
    assert (App.specs sp = []) as ->.
    { destruct (App.specs sp); [reflexivity | discriminate]. }
    tauto.
Qed.

Lemma speciality_some_true_iff specs d :
  App.speciality_some d (fun s => arr_includes specs s) = Normal true <->
  has_any specs d.
Proof.
  split; [apply speciality_some_true|].
  intros H. pose proof H as (l & s & E & _).
  rewrite speciality_some_well_formed by (now exists l).
  f_equal. now apply any_test_iff.
Qed.

End MembershipFacts.

(** X5: the filtered list holds exactly the records of the doctor list
    that meet every active criterion, none left out: in App.tsx
    (whenever it returns) the name contains the query and the mode
    equals the selected one, both up to case, and one selected
    specialty is there; in part_000 the mode is the selected one itself
    and all selected specialties are there. *)
Theorem filtered_holds_exactly_the_matches :
  forall (D : list Doctor) (sp : URLSearchParams.t) (st : Part000.State)
         (d : Doctor),
    (forall r, App.filtered D sp = Normal r ->
       (In d r <->
        In d D /\
        meets eq_nocase has_any (App.nameQuery sp) (App.moc sp)
              (App.specs sp) d)) /\
    (In d (Part000.filtered st) <->
     In d (Part000.data st) /\
     meets eq has_all (Part000.query st)
           (Part000.moc (Part000.searchParams st))
           (Part000.specs (Part000.searchParams st)) d).
Proof.
  intros D sp st d. unfold meets. split.
  - intros r H. rewrite (App_filtered_In D sp r d H).
    rewrite mode_test_lower_iff, speciality_some_true_iff. tauto.
  - rewrite Part000_filtered_In.
    rewrite mode_test_strict_iff, speciality_every_iff. tauto.
Qed.

Lemma filtered_holds_exactly_the_matches_witness :
  In (doc "Amanda" "In Clinic" (SpecArray ["ENT"]) 4 300)
     [doc "Amanda" "In Clinic" (SpecArray ["ENT"]) 4 300] <->
  In (doc "Amanda" "In Clinic" (SpecArray ["ENT"]) 4 300)
     [ doc "Bob" "In Clinic" (SpecArray ["ENT"]) 2 500;
       doc "Amanda" "In Clinic" (SpecArray ["ENT"]) 4 300 ] /\
  meets eq_nocase has_any "a" "in clinic" ["Dentist"; "ENT"]
        (doc "Amanda" "In Clinic" (SpecArray ["ENT"]) 4 300).
Proof.
  apply (proj1 (filtered_holds_exactly_the_matches
                  [ doc "Bob" "In Clinic" (SpecArray ["ENT"]) 2 500;
                    doc "Amanda" "In Clinic" (SpecArray ["ENT"]) 4 300 ]
                  [ ("name", "a"); ("moc", "in clinic");
                    ("specialty", "Dentist,ENT") ]
                  (Part000.mkState [] "" [] [])
                  (doc "Amanda" "In Clinic" (SpecArray ["ENT"]) 4 300))).
  reflexivity.
Defined.

(** X6: filtering a filtered list again, with the same query, returns
    it as it is; in both variants. *)
Theorem filtered_twice :
  forall (D : list Doctor) (sp : URLSearchParams.t) (st : Part000.State),
    (forall r, App.filtered D sp = Normal r -> App.filtered r sp = Normal r)
    /\
    Part000.filtered
      (Part000.mkState (Part000.filtered st) (Part000.query st)
                       (Part000.suggestions st) (Part000.searchParams st)) =
    Part000.filtered st.
Proof.
  intros D sp st. split.
  - intros r H.
    assert (forall d, In d r ->
              (App.nameQuery sp <> "" ->
               contains_nocase (name d) (App.nameQuery sp)) /\
              (App.moc sp <> "" -> mode_test_lower (App.moc sp) d = true) /\
              (App.specs sp <> [] ->
               App.speciality_some d
                 (fun s => arr_includes (App.specs sp) s) = Normal true))
      as T.
    { intros d Hd. now apply (App_filtered_In D sp r d H) in Hd. }
    apply App_filtered_inv in H as (r0 & E & _).
    rewrite App_filtered_steps.
    rewrite name_step_fixed
      by (apply Forall_forall; intros d Hd; apply (T d Hd)).
    rewrite mode_step_fixed
      by (apply Forall_forall; intros d Hd; apply (T d Hd)).
    assert (sort_step (App.sort sp) r = r) as S.
    { rewrite E. apply sort_step_idem. }
    destruct (negb (Nat.eqb _ 0)) eqn:N; cbn; [|now rewrite S].
    apply nonempty_iff in N.
    rewrite (filter_throwing_normal _ (fun _ => true)).
    + cbn. rewrite filter_all_true, S; [reflexivity|].
      now apply Forall_forall.
    + apply Forall_forall. intros d Hd. now apply (T d Hd).
  - set (F := Part000.filtered st).
    assert (forall d, In d F ->
              (Part000.query st <> "" ->
               contains_nocase (name d) (Part000.query st)) /\
              (Part000.moc (Part000.searchParams st) <> "" ->
               mode_test_strict (Part000.moc (Part000.searchParams st)) d
               = true) /\
              (Part000.specs (Part000.searchParams st) <> [] ->
               Part000.speciality_every
                 (Part000.specs (Part000.searchParams st)) d = true))
      as T.
    { intros d Hd. now apply Part000_filtered_In in Hd. }
    rewrite Part000_filtered_steps.
    cbn [Part000.data Part000.query Part000.searchParams]. cbv zeta.
    rewrite name_step_fixed
      by (apply Forall_forall; intros d Hd; apply (T d Hd)).
    rewrite mode_step_fixed
      by (apply Forall_forall; intros d Hd; apply (T d Hd)).
    assert (sort_step (Part000.sort (Part000.searchParams st)) F = F) as S.
    { unfold F. rewrite Part000_filtered_steps. apply sort_step_idem. }
    destruct (negb (Nat.eqb _ 0)) eqn:N; [|exact S].
    apply nonempty_iff in N.
    rewrite filter_all_true; [exact S|].
    apply Forall_forall. intros d Hd. now apply (T d Hd).
Qed.

Lemma filtered_twice_witness :
  App.filtered
    [ doc "B" "In Clinic" (SpecArray ["ENT"]) 9 100;
      doc "A" "In Clinic" (SpecArray ["ENT"]) 2 500 ]
    [("specialty", "ENT"); ("sort", "fees")] =
  Normal
    [ doc "B" "In Clinic" (SpecArray ["ENT"]) 9 100;
      doc "A" "In Clinic" (SpecArray ["ENT"]) 2 500 ].
Proof.
  apply (proj1 (filtered_twice
                  [ doc "A" "In Clinic" (SpecArray ["ENT"]) 2 500;
                    doc "C" "In Clinic" (SpecArray ["Dentist"]) 2 500;
                    doc "B" "In Clinic" (SpecArray ["ENT"]) 9 100 ]
                  [("specialty", "ENT"); ("sort", "fees")]
                  (Part000.mkState [] "" [] []))).
  reflexivity.
Defined.

(** X7: sorting loses and repeats no record: the filtered list is a
    rearrangement of the filtered list of the query without its sort
    key, of the same length, and it is never longer than the doctor
    list; in both variants. *)
Theorem sort_rearranges :
  forall (D : list Doctor) (sp : URLSearchParams.t) (st : Part000.State),
    (forall r, App.filtered D sp = Normal r ->
       exists r0,
         App.filtered D (without_sort sp) = Normal r0 /\
         Permutation r r0 /\
         List.length r = List.length r0 /\
         List.length r <= List.length D) /\
    (Permutation (Part000.filtered st)
                 (Part000.filtered (state_without_sort st)) /\
     List.length (Part000.filtered st) <= List.length (Part000.data st)).
Proof.
  assert (forall A (l1 l2 : list A),
             Subseq l1 l2 -> List.length l1 <= List.length l2) as L.
  { induction 1; cbn; lia. }
  intros D sp st. split.
  - intros r H. rewrite App_filtered_without_sort in H.
    destruct (App.filtered D (without_sort sp)) as [r0|] eqn:E0;
      cbn in H; [|discriminate].
    injection H as <-. exists r0.
    pose proof (sort_step_perm (App.sort sp) r0) as P.
    split; [reflexivity|]. split; [exact P|].
    split; [now apply Permutation_length|].
    rewrite (Permutation_length P).
    apply App_filtered_inv in E0 as (r1 & -> & Hs & _).
    rewrite (Permutation_length (sort_step_perm _ r1)).
    apply L. eapply Subseq_trans; [exact Hs|].
    eapply Subseq_trans; [apply mode_step_Subseq | apply name_step_Subseq].
  - rewrite Part000_filtered_without_sort. split; [apply sort_step_perm|].
    rewrite (Permutation_length (sort_step_perm _ _)).
    rewrite Part000_filtered_steps.
    rewrite (Permutation_length (sort_step_perm _ _)).
    cbn [state_without_sort Part000.data Part000.query
         Part000.searchParams]. cbv zeta.
    apply L. destruct (negb _).
    + eapply Subseq_trans; [apply Subseq_filter|].
      eapply Subseq_trans; [apply mode_step_Subseq | apply name_step_Subseq].
    + eapply Subseq_trans; [apply mode_step_Subseq | apply name_step_Subseq].
Qed.

Lemma sort_rearranges_witness :
  exists r0,
    App.filtered
      [ doc "A" "In Clinic" (SpecArray ["ENT"]) 2 500;
        doc "B" "In Clinic" (SpecArray ["ENT"]) 9 100 ]
      (without_sort [("sort", "fees")]) = Normal r0 /\
    Permutation
      [ doc "B" "In Clinic" (SpecArray ["ENT"]) 9 100;
        doc "A" "In Clinic" (SpecArray ["ENT"]) 2 500 ] r0 /\
    List.length
      [ doc "B" "In Clinic" (SpecArray ["ENT"]) 9 100;
        doc "A" "In Clinic" (SpecArray ["ENT"]) 2 500 ] = List.length r0 /\
    List.length
      [ doc "B" "In Clinic" (SpecArray ["ENT"]) 9 100;
        doc "A" "In Clinic" (SpecArray ["ENT"]) 2 500 ] <=
    List.length
      [ doc "A" "In Clinic" (SpecArray ["ENT"]) 2 500;
        doc "B" "In Clinic" (SpecArray ["ENT"]) 9 100 ].
Proof.
  apply (proj1 (sort_rearranges
                  [ doc "A" "In Clinic" (SpecArray ["ENT"]) 2 500;
                    doc "B" "In Clinic" (SpecArray ["ENT"]) 9 100 ]
                  [("sort", "fees")]
                  (Part000.mkState [] "" [] []))).
  reflexivity.
Defined.

(** X8: on doctor records whose name and mode are strings, as
    [Doctor] has them, the one place where the evaluation of App.tsx
    can throw is the [d.speciality.some] call: it throws exactly when a
    specialty is selected and some record whose speciality is not a
    list passes the name and the mode filter, and with no specialty
    selected it does not throw. *)
Theorem filtered_throws_exactly :
  forall (D : list Doctor) (sp : URLSearchParams.t),
    App.filtered D sp = Throw <->
    App.specs sp <> [] /\
    exists d,
      In d D /\ speciality d = SpecMalformed /\
      (App.nameQuery sp <> "" ->
       contains_nocase (name d) (App.nameQuery sp)) /\
      (App.moc sp <> "" -> eq_nocase (mode d) (App.moc sp)).
Proof.
  intros D sp. rewrite App_filtered_steps.
  destruct (negb (Nat.eqb _ 0)) eqn:E.
  - apply nonempty_iff in E.
    destruct (filter_throwing _ _) as [r0|] eqn:F; cbn.
    + split; [discriminate|]. intros (_ & d & Hd & M & Hq & Hm).
      exfalso.
      assert (filter_throwing
                (fun d => App.speciality_some d
                            (fun s => arr_includes (App.specs sp) s))
                (mode_step mode_test_lower (App.moc sp)
                           (name_step (App.nameQuery sp) D)) = Throw) as T.
      { apply filter_throwing_throw, Exists_exists. exists d. split.
        - apply In_mode_step. split; [now apply In_name_step|].
          intros N. now apply mode_test_lower_iff, Hm.
        - now apply speciality_some_throw. }
      congruence.
    + split; [|reflexivity]. intros _. split; [assumption|].
      apply filter_throwing_throw, Exists_exists in F as (d & Hd & T).
      apply speciality_some_throw in T.
      apply In_mode_step in Hd as [Hd Hm].
      apply In_name_step in Hd as [Hd Hq].
      exists d. repeat split; try assumption.
      intros N. now apply mode_test_lower_iff, Hm.
  - cbn. split; [discriminate|]. intros [N _].
    apply nonempty_iff in N. congruence.
Qed.

Lemma filtered_throws_exactly_witness :
  App.filtered
    [ doc "A" "In Clinic" (SpecArray ["ENT"]) 2 500;
      doc "B" "in clinic" SpecMalformed 9 100 ]
    [("moc", "In Clinic"); ("specialty", "ENT")] = Throw.
Proof.
  apply (proj2 (filtered_throws_exactly
                  [ doc "A" "In Clinic" (SpecArray ["ENT"]) 2 500;
                    doc "B" "in clinic" SpecMalformed 9 100 ]
                  [("moc", "In Clinic"); ("specialty", "ENT")])).
  split; [discriminate|].
  exists (doc "B" "in clinic" SpecMalformed 9 100).
  split; [right; now left|]. split; [reflexivity|]. split.
  - intros N. exfalso. apply N. reflexivity.
  - intros _. apply eq_nocase_iff. reflexivity.
Defined.

Section AgreementFacts.

Lemma bool_eq_iff (a b : bool) : (a = true <-> b = true) -> a = b.
Proof. destruct a, b; intros [H1 H2]; auto; symmetry; auto. Qed.

Lemma any_every_single s d :
  any_test [s] d = Part000.speciality_every [s] d.
Proof.
  apply bool_eq_iff. rewrite any_test_iff, speciality_every_iff.
  unfold has_any, has_all. split.
  - intros (l & x & E & Hl & [<- | []]). exists l. split; [assumption|].
    intros t [<- | []]. assumption.
  - intros (l & E & H). exists l, s. split; [assumption|].
    split; [apply H|]; now left.
Qed.

End AgreementFacts.

(** X9: the two variants return the same list when at most one
    specialty is selected and, among the records, a mode that equals
    the selected one up to case is the selected one: on doctor lists
    whose specialities are lists, with the name query of App.tsx as the
    search text of part_000. *)
Theorem variants_agree_on_one_specialty :
  forall (D sugg : list Doctor) (sp : URLSearchParams.t),
    Forall well_formed D ->
    List.length (App.specs sp) <= 1 ->
    (forall d, In d D -> eq_nocase (mode d) (App.moc sp) ->
               mode d = App.moc sp) ->
    App.filtered D sp =
    Normal (Part000.filtered (Part000.mkState D (App.nameQuery sp) sugg sp)).
Proof.
  intros D sugg sp W L M.
  rewrite (App_filtered_well_formed D sp W), Part000_filtered_steps.
  cbn [Part000.data Part000.query Part000.searchParams]. cbv zeta.
  change (Part000.sort sp) with (App.sort sp).
  change (Part000.moc sp) with (App.moc sp).
  change (Part000.specs sp) with (App.specs sp).
  do 2 f_equal.
  assert (mode_step mode_test_lower (App.moc sp)
                    (name_step (App.nameQuery sp) D) =
          mode_step mode_test_strict (App.moc sp)
                    (name_step (App.nameQuery sp) D)) as ->.
  { unfold mode_step. destruct (truthy (App.moc sp)); [|reflexivity].
    apply filter_ext_in. intros d Hd. apply bool_eq_iff.
    rewrite mode_test_lower_iff, mode_test_strict_iff. split.
    - apply M. eapply Subseq_In; [apply name_step_Subseq | exact Hd].
    - intros ->. apply eq_nocase_refl. }
  destruct (App.specs sp) as [| s [| s' l]]; cbn in L; try lia.
  - reflexivity.
  - cbn [List.length Nat.eqb negb]. apply filter_ext.
    intros d. apply any_every_single.
Qed.

Lemma variants_agree_on_one_specialty_witness :
  App.filtered
    [ doc "A" "In Clinic" (SpecArray ["ENT"; "Dentist"]) 2 500;
      doc "B" "Video Consult" (SpecArray ["ENT"]) 9 100 ]
    [("moc", "In Clinic"); ("specialty", "ENT")] =
  Normal
    (Part000.filtered
       (Part000.mkState
          [ doc "A" "In Clinic" (SpecArray ["ENT"; "Dentist"]) 2 500;
            doc "B" "Video Consult" (SpecArray ["ENT"]) 9 100 ]
          (App.nameQuery [("moc", "In Clinic"); ("specialty", "ENT")]) []
          [("moc", "In Clinic"); ("specialty", "ENT")])).
Proof.
  apply (variants_agree_on_one_specialty
           [ doc "A" "In Clinic" (SpecArray ["ENT"; "Dentist"]) 2 500;
             doc "B" "Video Consult" (SpecArray ["ENT"]) 9 100 ]
           [] [("moc", "In Clinic"); ("specialty", "ENT")]).
  - repeat constructor; eexists; reflexivity.
  - cbn. lia.
  - intros d [<- | [<- | []]] H.
    + reflexivity.
    + apply eq_nocase_iff in H. discriminate.
Defined.

Section TestIdFacts.

Lemma replaceAll_both c s :
  is_separator c = true ->
  replaceAll " " "-" (replaceAll "/" "-" (String c s)) =
  String "-" (replaceAll " " "-" (replaceAll "/" "-" s)).
Proof.
  unfold is_separator. intros H. cbn [replaceAll].
  destruct (Ascii.eqb c "/") eqn:E1; cbn.
  - reflexivity.
  - rewrite orb_false_r in H. now rewrite H.
Qed.

Lemma replaceAll_neither c s :
  is_separator c = false ->
  replaceAll " " "-" (replaceAll "/" "-" (String c s)) =
  String c (replaceAll " " "-" (replaceAll "/" "-" s)).
Proof.
  unfold is_separator. intros H. apply orb_false_iff in H as [H1 H2].
  cbn [replaceAll]. rewrite H2. cbn [replaceAll]. now rewrite H1.
Qed.

Lemma replace_runs_single s : forall in_run,
  single_separators s = true ->
  (in_run = true ->
   match s with
   | EmptyString => True
   | String c _ => is_separator c = false
   end) ->
  replace_runs_from is_separator "-" in_run s =
  replaceAll " " "-" (replaceAll "/" "-" s).
Proof.
  induction s as [| c s IH]; intros in_run S R; [reflexivity|].
  assert (single_separators s = true /\
          (is_separator c = true ->
           match s with
           | EmptyString => True
           | String c' _ => is_separator c' = false
           end)) as [S' R'].
  { cbn in S. destruct s as [| c' s']; [now split|].
    apply andb_true_iff in S as [S1 S2]. split; [exact S2|].
    intros C. fold (is_separator c) (is_separator c') in S1.
    rewrite C in S1. cbn in S1. now apply negb_true_iff in S1. }
  cbn [replace_runs_from].
  destruct (is_separator c) eqn:C.
  - rewrite replaceAll_both by assumption.
    destruct in_run; [specialize (R eq_refl); congruence|].
    cbn. f_equal. apply IH; auto.
  - rewrite replaceAll_neither by assumption.
    f_equal. apply IH; [assumption | discriminate].
Qed.

Lemma all_distinct_NoDup l : all_distinct l = true -> NoDup l.
Proof.
  induction l as [| x l IH]; cbn; [constructor|].
  rewrite andb_true_iff, negb_true_iff. intros [H1 H2].
  constructor; [now apply arr_includes_false_iff | auto].
Qed.

End TestIdFacts.

(** X10: the two variants give a specialty checkbox the same test id
    whenever the term has no two separators (a space, a slash) in a
    row; every term of the vocabulary is such a term, and the test ids
    of the vocabulary are pairwise distinct. *)
Theorem specialty_test_ids_agree :
  (forall spec,
      single_separators spec = true ->
      App.specialty_testid spec = Part000.specialty_testid spec) /\
  (forall spec,
      In spec SPECIALTIES ->
      App.specialty_testid spec = Part000.specialty_testid spec) /\
  NoDup (List.map App.specialty_testid SPECIALTIES).
Proof.
  assert (forall spec,
             single_separators spec = true ->
             App.specialty_testid spec = Part000.specialty_testid spec) as G.
  { intros spec H.
    unfold App.specialty_testid, Part000.specialty_testid,
      App.specialty_id, Part000.specialty_id, replace_runs.
    f_equal. apply (replace_runs_single spec false H). discriminate. }
  split; [exact G|]. split.
  - intros spec H. apply G.
    assert (forallb single_separators SPECIALTIES = true) as F
        by reflexivity.
    rewrite forallb_forall in F. now apply F.
  - apply all_distinct_NoDup. vm_compute. reflexivity.
Qed.

(** X11: after an update the URL holds the key at most once, whatever
    it held before: no pair of the key after a removal, and the one
    pair with the new value otherwise. *)
Theorem update_leaves_one_pair :
  forall (sp : URLSearchParams.t) (key : string) (value : ParamValue),
    List.filter (fun kv => String.eqb (fst kv) key)
                (App.updateParam sp key value) =
    (if falsy value || is_empty_array value then []
     else [(key, param_string value)]) /\
    List.filter (fun kv => String.eqb (fst kv) key)
                (Part000.updateParam sp key value) =
    (if falsy value || is_empty_array value then []
     else [(key, param_string value)]).
Proof.
  intros sp key value.
  change (Part000.updateParam sp key value)
    with (App.updateParam sp key value).
  unfold App.updateParam.
  destruct (falsy value || is_empty_array value).
  - split; apply delete_none.
  - split; apply set_one.
Qed.

Section NarrowingFacts.

Lemma string_app_assoc (a b c : string) :
  ((a ++ b) ++ c)%string = (a ++ (b ++ c))%string.
Proof. induction a as [| x a IH]; cbn; congruence. Qed.

(** A string that contains a string that contains [q] contains [q]. *)
Lemma contains_nocase_trans s q' q :
  contains_nocase s q' -> contains_nocase q' q -> contains_nocase s q.
Proof.
  rewrite <- !includes_lower_iff, !includes_iff.
  intros (a & b & E1) (c & d & E2).
  exists (a ++ c)%string, (d ++ b)%string.
  rewrite E1, E2. now rewrite !string_app_assoc.
Qed.

Lemma name_test_empty d : name_test "" d = true.
Proof. unfold name_test. cbn. apply includes_empty. Qed.

(** The name step is a filter, also for the empty query. *)
Lemma name_step_filter q l : name_step q l = List.filter (name_test q) l.
Proof.
  unfold name_step. destruct (truthy q) eqn:T; [reflexivity|].
  apply truthy_false_iff in T. subst q. symmetry.
  apply filter_all_true, Forall_forall. intros d _. apply name_test_empty.
Qed.

Lemma filter_filter_implied {A} (f g : A -> bool) l :
  (forall x, f x = true -> g x = true) ->
  List.filter f (List.filter g l) = List.filter f l.
Proof.
  intros H. induction l as [| x l IH]; cbn; [reflexivity|].
  destruct (g x) eqn:G; cbn; rewrite IH; [reflexivity|].
  destruct (f x) eqn:F; [|reflexivity].
  apply H in F. congruence.
Qed.

Lemma name_step_narrow q q' l :
  contains_nocase q' q ->
  name_step q' l = List.filter (name_test q') (name_step q l).
Proof.
  intros C. rewrite !name_step_filter. symmetry.
  apply filter_filter_implied. intros d H.
  apply name_test_iff. apply name_test_iff in H.
  eapply contains_nocase_trans; eassumption.
Qed.

Lemma mode_step_filter test m (f : Doctor -> bool) l :
  mode_step test m (List.filter f l) = List.filter f (mode_step test m l).
Proof.
  unfold mode_step. destruct (truthy m); [apply filter_comm | reflexivity].
Qed.

(** Narrowing the name query of App.tsx, the other keys as they are. *)
Lemma App_filtered_narrow D sp sp' r :
  contains_nocase (App.nameQuery sp') (App.nameQuery sp) ->
  App.moc sp' = App.moc sp -> App.specs sp' = App.specs sp ->
  App.sort sp' = App.sort sp ->
  App.filtered D sp = Normal r ->
  App.filtered D sp' =
  Normal (List.filter (name_test (App.nameQuery sp')) r).
Proof.
  intros C Em Es Eo. rewrite !App_filtered_steps, Em, Es, Eo.
  rewrite (name_step_narrow _ _ D C), mode_step_filter.
  destruct (negb (Nat.eqb _ 0)).
  - destruct (filter_throwing _ (mode_step _ _ _)) as [r1|] eqn:F;
      cbn; [|discriminate].
    intros [= <-]. rewrite (filter_throwing_filter _ _ _ _ F). cbn.
    f_equal. symmetry. apply sort_step_filter.
  - cbn. intros [= <-]. f_equal. symmetry. apply sort_step_filter.
Qed.

Lemma nameQuery_after_update sp q' :
  q' <> "" ->
  App.nameQuery (App.updateParam sp "name" (VString q')) = q' /\
  App.moc (App.updateParam sp "name" (VString q')) = App.moc sp /\
  App.specs (App.updateParam sp "name" (VString q')) = App.specs sp /\
  App.sort (App.updateParam sp "name" (VString q')) = App.sort sp.
Proof.
  intros N.
  unfold App.nameQuery, App.moc, App.specs, App.sort, get_or_empty,
    get_specs.
  rewrite (updateParam_get_other sp "name" "moc") by discriminate.
  rewrite (updateParam_get_other sp "name" "specialty") by discriminate.
  rewrite (updateParam_get_other sp "name" "sort") by discriminate.
  rewrite updateParam_set.
  - rewrite get_set_same. repeat split.
  - cbn. apply truthy_iff in N. now rewrite N.
Qed.

End NarrowingFacts.

(** X12: typing a longer query only narrows the list.  When the new
    text contains the old query, up to case, the new filtered list is
    the old one with the records that do not match the new text left
    out, in the same order: in App.tsx for the text written to the URL
    by the search box, in part_000 for the text stored as the
    query. *)
Theorem longer_query_narrows :
  forall (D : list Doctor) (sp : URLSearchParams.t) (st : Part000.State)
         (q' : string),
    (q' <> "" ->
     contains_nocase q' (App.nameQuery sp) ->
     forall r, App.filtered D sp = Normal r ->
       exists keep : Doctor -> bool,
         (forall d, keep d = true <-> contains_nocase (name d) q') /\
         App.filtered D (App.updateParam sp "name" (VString q')) =
         Normal (List.filter keep r)) /\
    (contains_nocase q' (Part000.query st) ->
     exists keep : Doctor -> bool,
       (forall d, keep d = true <-> contains_nocase (name d) q') /\
       Part000.filtered
         (Part000.mkState (Part000.data st) q' (Part000.suggestions st)
                          (Part000.searchParams st)) =
       List.filter keep (Part000.filtered st)).
Proof.
  intros D sp st q'. split.
  - intros N C r H.
    destruct (nameQuery_after_update sp q' N) as (Eq & Em & Es & Eo).
    exists (name_test q'). split; [intros d; apply name_test_iff|].
    rewrite (App_filtered_narrow D sp _ r); try assumption.
    + now rewrite Eq.
    + now rewrite Eq.
  - intros C. exists (name_test q').
    split; [intros d; apply name_test_iff|].
    rewrite !Part000_filtered_steps.
    cbn [Part000.data Part000.query Part000.searchParams]. cbv zeta.
    rewrite (name_step_narrow _ _ (Part000.data st) C), mode_step_filter.
    rewrite sort_step_filter. f_equal.
    destruct (negb (Nat.eqb _ 0)); [apply filter_comm | reflexivity].
Qed.

Lemma longer_query_narrows_witness :
  exists keep : Doctor -> bool,
    (forall d, keep d = true <-> contains_nocase (name d) "AMA") /\
    App.filtered
      [ doc "Alice" "In Clinic" (SpecArray ["ENT"]) 2 500;
        doc "Bob" "In Clinic" (SpecArray ["ENT"]) 2 500;
        doc "Amanda" "In Clinic" (SpecArray ["ENT"]) 9 100 ]
      (App.updateParam [("name", "a"); ("sort", "fees")] "name"
                       (VString "AMA")) =
    Normal
      (List.filter keep
         [ doc "Amanda" "In Clinic" (SpecArray ["ENT"]) 9 100;
           doc "Alice" "In Clinic" (SpecArray ["ENT"]) 2 500 ]).
Proof.
  apply (proj1 (longer_query_narrows
                  [ doc "Alice" "In Clinic" (SpecArray ["ENT"]) 2 500;
                    doc "Bob" "In Clinic" (SpecArray ["ENT"]) 2 500;
                    doc "Amanda" "In Clinic" (SpecArray ["ENT"]) 9 100 ]
                  [("name", "a"); ("sort", "fees")]
                  (Part000.mkState [] "" [] []) "AMA")).
  - discriminate.
  - apply includes_lower_iff. reflexivity.
  - reflexivity.
Defined.

(** X13: a click on a suggestion of App.tsx makes that doctor's name
    the name query, and the filtered list becomes the one before the
    click with the records whose name does not contain that name left
    out; the doctor of the suggestion stays in it if it was there. *)
Theorem suggestion_click_narrows :
  forall (D : list Doctor) (sp : URLSearchParams.t) (s : Doctor)
         (r : list Doctor),
    In s (App.suggestions D sp) ->
    App.filtered D sp = Normal r ->
    App.nameQuery (App.onSuggestionClick sp s) = name s /\
    exists keep : Doctor -> bool,
      (forall d, keep d = true <-> contains_nocase (name d) (name s)) /\
      App.filtered D (App.onSuggestionClick sp s) =
      Normal (List.filter keep r) /\
      (In s r -> In s (List.filter keep r)).
Proof.
  intros D sp s r Hs H.
  assert (App.nameQuery sp <> "" /\
          contains_nocase (name s) (App.nameQuery sp)) as [Nq C].
  { unfold App.suggestions in Hs. cbv zeta in Hs.
    destruct (truthy (App.nameQuery sp)) eqn:T; cbn [negb] in Hs;
      [|contradiction].
    split; [now apply truthy_iff|].
    unfold slice0 in Hs.
    apply (Subseq_In _ _ _ (Subseq_firstn _ _)) in Hs.
    apply filter_In in Hs as [_ Hs]. now apply includes_lower_iff. }
  assert (name s <> "") as N.
  { intros E. rewrite E in C.
    destruct C as (pre & mid & post & E' & M).
    destruct pre, mid; cbn in E'; try discriminate.
    inversion M. congruence. }
  unfold App.onSuggestionClick.
  destruct (nameQuery_after_update sp (name s) N) as (Eq & Em & Es & Eo).
  split; [exact Eq|].
  exists (name_test (name s)).
  split; [intros d; apply name_test_iff|]. split.
  - rewrite (App_filtered_narrow D sp _ r); try assumption.
    + now rewrite Eq.
    + now rewrite Eq.
  - intros Hin. apply filter_In. split; [assumption|].
    unfold name_test. apply includes_refl.
Qed.

Lemma suggestion_click_narrows_witness :
  App.nameQuery
    (App.onSuggestionClick [("name", "a")]
       (doc "Amanda" "In Clinic" (SpecArray ["ENT"]) 9 100)) =
  name (doc "Amanda" "In Clinic" (SpecArray ["ENT"]) 9 100) /\
  exists keep : Doctor -> bool,
    (forall d, keep d = true <->
               contains_nocase
                 (name d)
                 (name (doc "Amanda" "In Clinic" (SpecArray ["ENT"]) 9 100)))
    /\
    App.filtered
      [ doc "Alice" "In Clinic" (SpecArray ["ENT"]) 2 500;
        doc "Amanda" "In Clinic" (SpecArray ["ENT"]) 9 100 ]
      (App.onSuggestionClick [("name", "a")]
         (doc "Amanda" "In Clinic" (SpecArray ["ENT"]) 9 100)) =
    Normal
      (List.filter keep
         [ doc "Alice" "In Clinic" (SpecArray ["ENT"]) 2 500;
           doc "Amanda" "In Clinic" (SpecArray ["ENT"]) 9 100 ]) /\
    (In (doc "Amanda" "In Clinic" (SpecArray ["ENT"]) 9 100)
        [ doc "Alice" "In Clinic" (SpecArray ["ENT"]) 2 500;
          doc "Amanda" "In Clinic" (SpecArray ["ENT"]) 9 100 ] ->
     In (doc "Amanda" "In Clinic" (SpecArray ["ENT"]) 9 100)
        (List.filter keep
           [ doc "Alice" "In Clinic" (SpecArray ["ENT"]) 2 500;
             doc "Amanda" "In Clinic" (SpecArray ["ENT"]) 9 100 ])).
Proof.
  apply (suggestion_click_narrows
           [ doc "Alice" "In Clinic" (SpecArray ["ENT"]) 2 500;
             doc "Amanda" "In Clinic" (SpecArray ["ENT"]) 9 100 ]
           [("name", "a")]
           (doc "Amanda" "In Clinic" (SpecArray ["ENT"]) 9 100)).
  - right. now left.
  - reflexivity.
Defined.

(** X14: when the name query is the only active criterion (no mode, no
    specialty, no sort), the suggestions are the first three records of
    the filtered list: in App.tsx, and in part_000 after [handleSearch]
    stored the text. *)
Theorem suggestions_head_the_list :
  forall (D : list Doctor) (sp : URLSearchParams.t)
         (st : Part000.State) (value : string),
    (App.nameQuery sp <> "" -> App.moc sp = "" -> App.specs sp = [] ->
     App.sort sp <> "fees" -> App.sort sp <> "experience" ->
     exists r, App.filtered D sp = Normal r /\
               App.suggestions D sp = firstn 3 r) /\
    (value <> "" ->
     Part000.moc (Part000.searchParams st) = "" ->
     Part000.specs (Part000.searchParams st) = [] ->
     Part000.sort (Part000.searchParams st) <> "fees" ->
     Part000.sort (Part000.searchParams st) <> "experience" ->
     Part000.suggestions (Part000.handleSearch st value) =
     firstn 3 (Part000.filtered (Part000.handleSearch st value))).
Proof.
  intros D sp st value. split.
  - intros Nq Em Es S1 S2. rewrite App_filtered_steps, Em, Es. cbn.
    eexists. split; [reflexivity|].
    rewrite sort_step_none by assumption.
    unfold App.suggestions, name_step. cbv zeta.
    apply truthy_iff in Nq. rewrite Nq. reflexivity.
  - intros Nv Em Es S1 S2.
    assert (truthy value = true) as T by now apply truthy_iff.
    unfold Part000.handleSearch. cbv zeta. rewrite T. cbn [negb].
    rewrite Part000_filtered_steps.
    cbn [Part000.data Part000.query Part000.searchParams
         Part000.suggestions].
    rewrite Em, Es. cbn. rewrite sort_step_none by assumption.
    unfold name_step. rewrite T. reflexivity.
Qed.

Lemma suggestions_head_the_list_witness :
  exists r,
    App.filtered
      [ doc "Alice" "In Clinic" (SpecArray ["ENT"]) 2 500;
        doc "Bob" "In Clinic" (SpecArray ["ENT"]) 2 500;
        doc "Amanda" "In Clinic" (SpecArray ["ENT"]) 9 100;
        doc "Carl" "In Clinic" SpecMalformed 9 100;
        doc "Dana" "In Clinic" (SpecArray ["ENT"]) 9 100 ]
      [("name", "a")] = Normal r /\
    App.suggestions
      [ doc "Alice" "In Clinic" (SpecArray ["ENT"]) 2 500;
        doc "Bob" "In Clinic" (SpecArray ["ENT"]) 2 500;
        doc "Amanda" "In Clinic" (SpecArray ["ENT"]) 9 100;
        doc "Carl" "In Clinic" SpecMalformed 9 100;
        doc "Dana" "In Clinic" (SpecArray ["ENT"]) 9 100 ]
      [("name", "a")] = firstn 3 r.
Proof.
  apply (proj1 (suggestions_head_the_list
                  [ doc "Alice" "In Clinic" (SpecArray ["ENT"]) 2 500;
                    doc "Bob" "In Clinic" (SpecArray ["ENT"]) 2 500;
                    doc "Amanda" "In Clinic" (SpecArray ["ENT"]) 9 100;
                    doc "Carl" "In Clinic" SpecMalformed 9 100;
                    doc "Dana" "In Clinic" (SpecArray ["ENT"]) 9 100 ]
                  [("name", "a")]
                  (Part000.mkState [] "" [] []) ""));
    try discriminate; reflexivity.
Defined.

(** X15: rendering the cards of the filtered list of App.tsx.  With a
    specialty selected, every record of the list has a list as
    speciality, so its specialty line is rendered, with the text
    part_000 renders.  With none selected, a record whose speciality is
    not a list and which passes the name and the mode filter is in the
    list, and rendering its specialty line throws, where part_000
    prints "N/A". *)
Theorem cards_of_the_filtered_list :
  forall (D : list Doctor) (sp : URLSearchParams.t),
    (App.specs sp <> [] ->
     forall r, App.filtered D sp = Normal r ->
       Forall (fun d => App.card_specialty d =
                        Normal (Part000.card_specialty d)) r) /\
    (App.specs sp = [] ->
     forall d,
       In d D -> speciality d = SpecMalformed ->
       (App.nameQuery sp <> "" ->
        contains_nocase (name d) (App.nameQuery sp)) ->
       (App.moc sp <> "" -> eq_nocase (mode d) (App.moc sp)) ->
       exists r, App.filtered D sp = Normal r /\ In d r /\
                 App.card_specialty d = Throw /\
                 Part000.card_specialty d = "N/A").
Proof.
  intros D sp. split.
  - intros N r H. apply App_filtered_inv in H as (r0 & -> & _ & Hany).
    apply sort_step_Forall. eapply Forall_impl; [|exact (Hany N)].
    intros d (l & s & E & _).
    unfold App.card_specialty, Part000.card_specialty. now rewrite E.
  - intros E d Hd M Hq Hm.
    destruct (App.filtered D sp) as [r|] eqn:F.
    + exists r. split; [reflexivity|]. split.
      * apply (App_filtered_In D sp r d F). split; [assumption|].
        split; [assumption|]. split.
        -- intros N. now apply mode_test_lower_iff, Hm.
        -- intros N. contradiction.
      * unfold App.card_specialty, Part000.card_specialty.
        now rewrite M.
    + exfalso. rewrite App_filtered_steps, E in F. discriminate.
Qed.

Lemma cards_of_the_filtered_list_witness :
  exists r,
    App.filtered
      [ doc "A" "In Clinic" (SpecArray ["ENT"]) 2 500;
        doc "B" "in clinic" SpecMalformed 9 100 ]
      [("moc", "In Clinic")] = Normal r /\
    In (doc "B" "in clinic" SpecMalformed 9 100) r /\
    App.card_specialty (doc "B" "in clinic" SpecMalformed 9 100) = Throw /\
    Part000.card_specialty (doc "B" "in clinic" SpecMalformed 9 100) = "N/A".
Proof.
  apply (proj2 (cards_of_the_filtered_list
                  [ doc "A" "In Clinic" (SpecArray ["ENT"]) 2 500;
                    doc "B" "in clinic" SpecMalformed 9 100 ]
                  [("moc", "In Clinic")])).
  - reflexivity.
  - right. now left.
  - reflexivity.
  - intros N. exfalso. apply N. reflexivity.
  - intros _. apply eq_nocase_iff. reflexivity.
Defined.
